(** * Uptime checker of the self-hosted health dashboard

    A shallow embedding of package [monitor] (checker, store, alerter):
    the probe and its classification, the hysteresis of [updateState], the
    webhook retry policy of [Alerter.Notify] and the bookkeeping of the worker
    registry, with the properties the design document states about them. *)

From Stdlib Require Import ZArith Lia Bool List Ascii String Sorted Permutation.
From Stdlib Require Import Decimal DecimalString DecimalPos.
From stdpp Require Import base gmap strings list.
Import ListNotations.

Local Open Scope string_scope.
Local Open Scope list_scope.
Local Open Scope Z_scope.

(** ** Go's [int]

    [int] is 64 bits wide on the platforms the server is built for; addition
    wraps around in two's complement. *)

Module GoInt.

Definition min_int : Z := - 2 ^ 63.
Definition max_int : Z := 2 ^ 63 - 1.

Definition in_range (z : Z) : Prop := min_int <= z <= max_int.

Definition wrap (z : Z) : Z := (z + 2 ^ 63) mod 2 ^ 64 - 2 ^ 63.

Definition add (a b : Z) : Z := wrap (a + b).

End GoInt.

(** ** Data model (store.go) *)

(** [Monitor]: the row of table [monitors]. The two timestamps play no part
    in the checker and are left out. *)
Record Monitor := mkMonitor {
  ID : Z;
  Name : string;
  URL : string;
  IntervalSeconds : Z;
  TimeoutSeconds : Z;
  State : string;
  ConsecutiveFailures : Z
}.

(** [Check]: one probe result as [RecordCheck] inserts it. [StatusCode] and
    [ResponseTimeMs] are pointers in the source, [None] is [nil]. *)
Record Check := mkCheck {
  MonitorID : Z;
  StatusCode : option Z;
  ResponseTimeMs : option Z;
  IsUp : bool
}.

#[global] Instance Monitor_eq_dec : EqDecision Monitor.
Proof. solve_decision. Defined.

#[global] Instance Check_eq_dec : EqDecision Check.
Proof. solve_decision. Defined.

(** failureThreshold is the number of consecutive failures before a monitor
    flips to "down". *)
Definition failureThreshold : Z := 3.

Definition state_unknown : string := "unknown".
Definition state_up : string := "up".
Definition state_down : string := "down".

(** ** The database behind [Store] *)

Record DB := mkDB {
  monitors : gmap Z Monitor;
  checks : list Check
}.

(** Result of a call that returns a Go [error]. *)
Inductive result (A : Type) :=
| Ok (a : A)
| Err.
Arguments Ok {A} a.
Arguments Err {A}.

Definition set_state (state : string) (failures : Z) (m : Monitor) : Monitor :=
  {| ID := ID m; Name := Name m; URL := URL m;
     IntervalSeconds := IntervalSeconds m; TimeoutSeconds := TimeoutSeconds m;
     State := state; ConsecutiveFailures := failures |}.

(** The trigger [prune_old_checks] of the schema deletes, after every insert
    into [checks], the rows whose [checked_at] is more than seven days back.
    The table is kept oldest first; [expired i] tells whether its i-th row
    (from 0) is that old when the insert happens. *)
Fixpoint prune_from (expired : nat -> bool) (i : nat) (l : list Check) : list Check :=
  match l with
  | [] => []
  | c :: l' =>
      if expired i then prune_from expired (S i) l'
      else c :: prune_from expired (S i) l'
  end.

Definition prune_old_checks (expired : nat -> bool) (l : list Check) : list Check :=
  prune_from expired 0 l.

Module Store.

(** Every operation takes [fault], whether the SQL statement fails (a busy
    or closed database); a failed statement changes nothing. *)

(** [Get]: [(nil, nil)] when no row has the id. *)
Definition Get (fault : bool) (id : Z) (d : DB) : result (option Monitor) :=
  if fault then Err else Ok (monitors d !! id).

(** [UpdateState]: one UPDATE statement that sets both columns of the row
    with this id; no row with the id is not an error. *)
Definition UpdateState (fault : bool) (monitorID : Z) (state : string)
    (consecutiveFailures : Z) (d : DB) : result unit * DB :=
  if fault then (Err, d)
  else (Ok (),
        {| monitors := alter (set_state state consecutiveFailures) monitorID (monitors d);
           checks := checks d |}).

(** [RecordCheck]: one INSERT into [checks]; the row gets the time of the
    insert, so it is the newest, and the trigger then removes the expired
    rows. A failed insert fires no trigger. *)
Definition RecordCheck (fault : bool) (expired : nat -> bool) (c : Check) (d : DB)
    : result unit * DB :=
  if fault then (Err, d)
  else (Ok (), {| monitors := monitors d;
                  checks := prune_old_checks expired (checks d) ++ [c] |}).

End Store.

(** ** The HTTP client as [probe] configures it

    [client.Do] belongs to Go's net/http. Its redirect loop is written here
    as the library documents it: the policy [CheckRedirect] is called before a
    redirect is followed, with the upcoming request and the requests made
    already, oldest first; [ErrUseLastResponse] makes [Do] return the most
    recent response with a nil error; a redirect whose Location header is
    missing or empty is returned as it is; a transport failure or a timeout at
    any hop makes [Do] return an error. A request is identified by its URL. *)

Record Response := mkResponse {
  RespStatusCode : Z;
  Location : option string
}.

Inductive PolicyResult :=
| PolicyNil
| ErrUseLastResponse
| PolicyErr.

Inductive DoResult :=
| DoResp (resp : Response)
| DoErr
| DoOutOfFuel.

(** The status codes [Do] follows for a GET without body. *)
Definition shouldRedirect (code : Z) : bool :=
  (code =? 301) || (code =? 302) || (code =? 303) || (code =? 307) || (code =? 308).

Section Client.

(** Whether [url.Parse] accepts a string: it decides if
    [http.NewRequestWithContext] builds a request and if a Location header
    can be followed. *)
Variable urlParses : string -> bool.

(** The policy and the network: what the server behind a URL answers,
    [None] for a transport error or a timeout. *)
Variable policy : string -> list string -> PolicyResult.
Variable server : string -> option Response.

(** [do_loop fuel req reqs] sends [req] after the requests [reqs]; it
    returns the outcome and the requests sent, oldest first. *)
Fixpoint do_loop (fuel : nat) (req : string) (reqs : list string)
    : DoResult * list string :=
  match fuel with
  | O => (DoOutOfFuel, reqs)
  | S fuel' =>
      let reqs' := reqs ++ [req] in
      match server req with
      | None => (DoErr, reqs')
      | Some resp =>
          if shouldRedirect (RespStatusCode resp) then
            match Location resp with
            | None => (DoResp resp, reqs')
            | Some loc =>
                if String.eqb loc "" then (DoResp resp, reqs')
                else if urlParses loc then
                  match policy loc reqs' with
                  | PolicyNil => do_loop fuel' loc reqs'
                  | ErrUseLastResponse => (DoResp resp, reqs')
                  | PolicyErr => (DoErr, reqs')
                  end
                else (DoErr, reqs')
            end
          else (DoResp resp, reqs')
      end
  end.

End Client.

(** The [CheckRedirect] closure of [probe]. *)
Definition CheckRedirect (req : string) (via : list string) : PolicyResult :=
  if 10 <=? Z.of_nat (length via) then ErrUseLastResponse else PolicyNil.

(** Ten iterations are enough under [CheckRedirect], see [do_loop_fuel]. *)
Definition redirect_fuel : nat := 10.

Definition client_Do (urlParses : string -> bool)
    (server : string -> option Response) (url : string) : DoResult * list string :=
  do_loop urlParses CheckRedirect server redirect_fuel url [].

(** ** Effects of a worker: the database and the calls it makes *)

Inductive LogMsg :=
| LogBuildRequest (monitorID : Z) (url : string)
| LogRecordCheck (monitorID : Z)
| LogUpdateState (monitorID : Z).

(** Calls observable at the boundary of the checker. [EvNotify] stands for a
    call of [Alerter.Notify]. *)
Inductive Event :=
| EvDo (requests : list string)
| EvRecordCheck (c : Check)
| EvGet (monitorID : Z)
| EvUpdateState (monitorID : Z) (state : string) (failures : Z)
| EvLog (msg : LogMsg)
| EvNotify (m : Monitor).

(** A computation of the checker runs on the database and yields a value, the
    database it leaves and the calls it made, in order. *)
Definition M (A : Type) : Type := DB -> A * DB * list Event.

Definition ret {A} (a : A) : M A := fun d => (a, d, []).

Definition bind {A B} (c : M A) (k : A -> M B) : M B :=
  fun d =>
    let '(a, d1, t1) := c d in
    let '(b, d2, t2) := k a d1 in
    (b, d2, t1 ++ t2).

Notation "x <- c ;; k" := (bind c (fun x => k))
  (at level 100, c at next level, right associativity).
Notation "c ;;; k" := (bind c (fun _ => k))
  (at level 100, right associativity).

Definition db_after {A} (r : A * DB * list Event) : DB := snd (fst r).
Definition calls {A} (r : A * DB * list Event) : list Event := snd r.

Definition emit (e : Event) : M unit := fun d => (tt, d, [e]).

Definition logPrintf (msg : LogMsg) : M unit := emit (EvLog msg).

Definition store_Get (fault : bool) (id : Z) : M (result (option Monitor)) :=
  fun d => (Store.Get fault id d, d, [EvGet id]).

Definition store_UpdateState (fault : bool) (id : Z) (state : string) (failures : Z)
    : M (result unit) :=
  fun d =>
    let '(r, d') := Store.UpdateState fault id state failures d in
    (r, d', [EvUpdateState id state failures]).

Definition store_RecordCheck (fault : bool) (expired : nat -> bool) (c : Check)
    : M (result unit) :=
  fun d =>
    let '(r, d') := Store.RecordCheck fault expired c d in
    (r, d', [EvRecordCheck c]).

(** What one tick meets outside the checker: the network, the time the
    exchange takes, whether each SQL statement fails, and which stored checks
    are past the seven days when the check of the tick is inserted. *)
Record TickEnv := mkTickEnv {
  server : string -> option Response;
  elapsed_ms : Z;
  record_fault : bool;
  get_fault : bool;
  update_fault : bool;
  expired : nat -> bool
}.

(** ** checker.go *)

(** The decision of [updateState]: new state and failure count from the
    stored ones and the outcome of the probe. *)
Definition next_state (state : string) (consecutiveFailures : Z) (isUp : bool)
    : string * Z :=
  if isUp then (state_up, 0)
  else
    let failures := GoInt.add consecutiveFailures 1 in
    if failureThreshold <=? failures then (state_down, failures)
    else (state, failures).

Definition updateState (env : TickEnv) (monitorID : Z) (isUp : bool) : M unit :=
  r <- store_Get (get_fault env) monitorID ;;
  match r with
  | Err => ret tt
  | Ok None => ret tt
  | Ok (Some m) =>
      let '(newState, failures) :=
        next_state (State m) (ConsecutiveFailures m) isUp in
      r <- store_UpdateState (update_fault env) monitorID newState failures ;;
      match r with
      | Err => logPrintf (LogUpdateState monitorID)
      | Ok _ => ret tt
      end
  end.

(** The [Check] that [probe] fills in from the outcome of [client.Do]. *)
Definition make_check (monitorID : Z) (ms : Z) (r : DoResult) : Check :=
  match r with
  | DoResp resp =>
      let code := RespStatusCode resp in
      {| MonitorID := monitorID; StatusCode := Some code;
         ResponseTimeMs := Some ms;
         IsUp := (200 <=? code) && (code <? 400) |}
  | DoErr | DoOutOfFuel =>
      {| MonitorID := monitorID; StatusCode := None;
         ResponseTimeMs := Some ms; IsUp := false |}
  end.

Section Checker.

Variable urlParses : string -> bool.

Definition probe (env : TickEnv) (monitorID : Z) (url : string) : M unit :=
  if negb (urlParses url) then
    logPrintf (LogBuildRequest monitorID url)
  else
    let '(r, sent) := client_Do urlParses (server env) url in
    emit (EvDo sent) ;;;
    let check := make_check monitorID (elapsed_ms env) r in
    r <- store_RecordCheck (record_fault env) (expired env) check ;;
    match r with
    | Err => logPrintf (LogRecordCheck monitorID)
    | Ok _ => updateState env monitorID (IsUp check)
    end.

(** The loop of [startWorker] once the stagger has passed: one probe at
    once, then one per tick, until the context is cancelled. The list holds
    what each probe meets; its end is the cancellation. *)
Fixpoint worker (ticks : list TickEnv) (monitorID : Z) (url : string) : M unit :=
  match ticks with
  | [] => ret tt
  | env :: ticks' => probe env monitorID url ;;; worker ticks' monitorID url
  end.

End Checker.

(** ** alerter.go *)

Module Alerter.

(** AlertPayload is the JSON body sent to the webhook URL. *)
Record AlertPayload := mkAlertPayload {
  MonitorName : string;
  PayloadURL : string;
  Status : string;
  Timestamp : string
}.

(** Outcome of [client.Post]: an error (no connection, timeout) or a
    response with its status code. *)
Inductive PostOutcome :=
| PostErr
| PostResp (status : Z).

Inductive AlertLog :=
| LogSending
| LogFailedRetrying
| LogRetryFailed
| LogRetrySucceeded.

Inductive AlertEvent :=
| APost (url : string) (payload : AlertPayload)
| ASleep (seconds : Z)
| ALog (l : AlertLog).

(** The alerter; its HTTP client has a fixed timeout of ten seconds, which
    shows as [PostErr]. *)
Record Alerter := mkAlerter {
  webhookURL : string
}.

Definition NewAlerter (webhookURL : string) : Alerter :=
  {| webhookURL := webhookURL |}.

(** [post]: [json.Marshal] cannot fail on a struct of four strings, so the
    result is that of [client.Post]; a response is closed and counts as
    success whatever its status code. *)
Definition post (a : Alerter) (payload : AlertPayload) (outcome : PostOutcome)
    : result unit * list AlertEvent :=
  match outcome with
  | PostErr => (Err, [APost (webhookURL a) payload])
  | PostResp _ => (Ok (), [APost (webhookURL a) payload])
  end.

(** [Notify a m now endpoint]: [now] is the formatted time of the call,
    [endpoint n] what the n-th POST of this call meets (from 0). *)
Definition Notify (a : Alerter) (m : Monitor) (now : string)
    (endpoint : nat -> PostOutcome) : list AlertEvent :=
  if String.eqb (webhookURL a) "" then []
  else
    let payload :=
      {| MonitorName := Name m; PayloadURL := URL m;
         Status := "down"; Timestamp := now |} in
    let '(r1, t1) := post a payload (endpoint 0%nat) in
    [ALog LogSending] ++ t1 ++
    match r1 with
    | Ok _ => []
    | Err =>
        let '(r2, t2) := post a payload (endpoint 1%nat) in
        [ALog LogFailedRetrying; ASleep 5] ++ t2 ++
        match r2 with
        | Err => [ALog LogRetryFailed]
        | Ok _ => [ALog LogRetrySucceeded]
        end
    end.

Definition is_post (e : AlertEvent) : bool :=
  match e with APost _ _ => true | _ => false end.

(** Number of delivery attempts in a run of [Notify]. *)
Definition attempts (t : list AlertEvent) : nat :=
  length (List.filter is_post t).

End Alerter.

(** ** The registry of workers (checker.go) *)

Module Supervisor.

(** A context is cancelled through its own cancel function or through
    its parent. Contexts handed in by callers and contexts made by
    [context.WithCancel] in [startWorker] are numbered apart. *)
Record Loop := mkLoop {
  loop_id : Z;
  loop_parent : nat;
  loop_ctx : nat
}.

(** [cancel] is the map of the source, from monitor id to the cancel
    function of the worker's context; [loops] are the goroutines started by
    [startWorker], oldest first. *)
Record Checker := mkChecker {
  cancel : gmap Z nat;
  loops : list Loop;
  cancelled_ctx : gset nat;
  cancelled_parent : gset nat;
  next_ctx : nat
}.

Definition NewChecker : Checker :=
  {| cancel := ∅; loops := []; cancelled_ctx := ∅; cancelled_parent := ∅;
     next_ctx := 0%nat |}.

Definition startWorker (ctx : nat) (m : Monitor) (c : Checker) : Checker :=
  let workerCtx := next_ctx c in
  {| cancel := <[ID m := workerCtx]> (cancel c);
     loops := loops c ++ [{| loop_id := ID m; loop_parent := ctx; loop_ctx := workerCtx |}];
     cancelled_ctx := cancelled_ctx c;
     cancelled_parent := cancelled_parent c;
     next_ctx := S workerCtx |}.

Definition stopWorker (id : Z) (c : Checker) : Checker :=
  match cancel c !! id with
  | Some workerCtx =>
      {| cancel := delete id (cancel c);
         loops := loops c;
         cancelled_ctx := {[workerCtx]} ∪ cancelled_ctx c;
         cancelled_parent := cancelled_parent c;
         next_ctx := next_ctx c |}
  | None => c
  end.

Definition Add (ctx : nat) (m : Monitor) (c : Checker) : Checker :=
  startWorker ctx m c.

Definition Restart (ctx : nat) (m : Monitor) (c : Checker) : Checker :=
  startWorker ctx m (stopWorker (ID m) c).

Definition Remove (id : Z) (c : Checker) : Checker :=
  stopWorker id c.

(** The loop of a worker returns only when its context is done; until
    then it keeps probing. *)
Definition ctx_done (c : Checker) (l : Loop) : bool :=
  bool_decide (loop_ctx l ∈ cancelled_ctx c)
  || bool_decide (loop_parent l ∈ cancelled_parent c).

Definition running (c : Checker) : list Loop :=
  List.filter (fun l => negb (ctx_done c l)) (loops c).

Definition running_for (id : Z) (c : Checker) : list Loop :=
  List.filter (fun l => loop_id l =? id) (running c).

End Supervisor.

(** ** Notions used in the statements *)

(** A response that [Do] would follow: a redirect status with a Location
    header that is not empty and parses. *)
Definition followable (urlParses : string -> bool) (resp : Response) : bool :=
  shouldRedirect (RespStatusCode resp)
  && match Location resp with
     | Some loc => negb (String.eqb loc "") && urlParses loc
     | None => false
     end.

(** [Do] goes from request [a] to request [b]: the answer to [a] is a
    redirect that can be followed and [b] is its Location. *)
Definition follows (urlParses : string -> bool) (server : string -> option Response)
    (a b : string) : Prop :=
  exists resp,
    server a = Some resp /\ followable urlParses resp = true /\ Location resp = Some b.

(** The requests [l] sent after [a] each follow the one before. *)
Fixpoint followed_chain (urlParses : string -> bool)
    (server : string -> option Response) (a : string) (l : list string) : Prop :=
  match l with
  | [] => True
  | b :: l' => follows urlParses server a b /\ followed_chain urlParses server b l'
  end.

Definition is_notify (e : Event) : bool :=
  match e with EvNotify _ => true | _ => false end.

Definition is_update (e : Event) : bool :=
  match e with EvUpdateState _ _ _ => true | _ => false end.

Definition is_get (e : Event) : bool :=
  match e with EvGet _ => true | _ => false end.

Definition is_record (e : Event) : bool :=
  match e with EvRecordCheck _ => true | _ => false end.

(** The invariant of a pair written through [UpdateState]. *)
Definition written_pair_ok (e : Event) : Prop :=
  match e with
  | EvUpdateState _ state failures => failureThreshold <= failures -> state = state_down
  | _ => True
  end.

(** ** Scenarios *)

(** The first check of [url.Parse]: a control byte in the string is an
    error ("invalid control character in URL"). The scenarios take this
    check for [urlParses]. *)
Definition is_ctl (a : ascii) : bool :=
  let b := nat_of_ascii a in (b <? 32)%nat || (b =? 127)%nat.

Fixpoint stringContainsCTLByte (s : string) : bool :=
  match s with
  | EmptyString => false
  | String a s' => is_ctl a || stringContainsCTLByte s'
  end.

Definition parse_ctl (url : string) : bool := negb (stringContainsCTLByte url).

Definition good_url : string := "http://example.com/health".
Definition bad_url : string := String "127"%char "http://example.com/health".

Definition monitor_1 (state : string) (failures : Z) : Monitor :=
  {| ID := 1; Name := "api"; URL := good_url; IntervalSeconds := 60;
     TimeoutSeconds := 10; State := state; ConsecutiveFailures := failures |}.

Definition db_1 (state : string) (failures : Z) : DB :=
  {| monitors := {[ 1 := monitor_1 state failures ]}; checks := [] |}.

Definition refused : string -> option Response := fun _ => None.

Definition serve (table : list (string * Response)) (url : string) : option Response :=
  snd <$> List.find (fun p => String.eqb (fst p) url) table.

(** Eleven redirects in a row, then a page. *)
Definition redirect_chain : list (string * Response) :=
  [ ("/0", mkResponse 301 (Some "/1")); ("/1", mkResponse 301 (Some "/2"));
    ("/2", mkResponse 301 (Some "/3")); ("/3", mkResponse 301 (Some "/4"));
    ("/4", mkResponse 301 (Some "/5")); ("/5", mkResponse 301 (Some "/6"));
    ("/6", mkResponse 301 (Some "/7")); ("/7", mkResponse 301 (Some "/8"));
    ("/8", mkResponse 301 (Some "/9")); ("/9", mkResponse 302 (Some "/10"));
    ("/10", mkResponse 307 (Some "/11")); ("/11", mkResponse 200 None) ].

Definition env_refused (ms : Z) (record_fault : bool) : TickEnv :=
  {| server := refused; elapsed_ms := ms; record_fault := record_fault;
     get_fault := false; update_fault := false; expired := fun _ => false |}.

Definition hook : Alerter.Alerter := Alerter.NewAlerter "https://hooks.example.com/alert".

Definition http_500_then_200 (n : nat) : Alerter.PostOutcome :=
  match n with
  | O => Alerter.PostResp 500
  | S _ => Alerter.PostResp 200
  end.

Definition no_connection (n : nat) : Alerter.PostOutcome := Alerter.PostErr.

(** ** Runs of ticks *)

(** The decision of [updateState] applied along a run of probes, given by
    whether each probe was up, oldest first. *)
Definition run_decisions (outcomes : list bool) (state : string) (failures : Z)
    : string * Z :=
  fold_left (fun sf isUp => next_state (fst sf) (snd sf) isUp) outcomes (state, failures).

(** Whether the probe of a tick is up, as [probe] computes it. *)
Definition tick_is_up (urlParses : string -> bool) (url : string) (env : TickEnv) : bool :=
  IsUp (make_check 0 (elapsed_ms env) (fst (client_Do urlParses (server env) url))).

(** No SQL statement of the tick fails. *)
Definition storage_ok (env : TickEnv) : bool :=
  negb (record_fault env) && negb (get_fault env) && negb (update_fault env).

(** The columns of a monitor that only the API writes. *)
Definition settings (m : Monitor) : Z * string * string * Z * Z :=
  (ID m, Name m, URL m, IntervalSeconds m, TimeoutSeconds m).

(** ** The monitors API of the store (store.go) *)

(** The table [monitors] declares its id AUTOINCREMENT: [seq] is the largest
    id the table ever held, and a new row gets the next one. *)
Record SeqDB := mkSeqDB {
  tables : DB;
  seq : Z
}.

Definition set_settings (name url : string) (interval timeout : Z) (m : Monitor)
    : Monitor :=
  {| ID := ID m; Name := name; URL := url;
     IntervalSeconds := interval; TimeoutSeconds := timeout;
     State := State m; ConsecutiveFailures := ConsecutiveFailures m |}.

Fixpoint insert_by_id (m : Monitor) (l : list Monitor) : list Monitor :=
  match l with
  | [] => [m]
  | x :: l' => if ID m <=? ID x then m :: l else x :: insert_by_id m l'
  end.

Definition sort_by_id (l : list Monitor) : list Monitor :=
  foldr insert_by_id [] l.

Module MonitorStore.

(** Error of [Update]: nil, [sql.ErrNoRows], or the error of the statement. *)
Inductive UpdateError :=
| UpdateNil
| ErrNoRows
| UpdateFailed.

(** [Create]: INSERT ... RETURNING; the row gets the next id and the column
    defaults, state 'unknown' and no failures, and is copied into [m]. No id
    is left after the largest int. *)
Definition Create (fault : bool) (m : Monitor) (s : SeqDB) : result Monitor * SeqDB :=
  if fault || (GoInt.max_int <=? seq s) then (Err, s)
  else
    let id := seq s + 1 in
    let row := {| ID := id; Name := Name m; URL := URL m;
                  IntervalSeconds := IntervalSeconds m;
                  TimeoutSeconds := TimeoutSeconds m;
                  State := state_unknown; ConsecutiveFailures := 0 |} in
    (Ok row,
     {| tables := {| monitors := <[id := row]> (monitors (tables s));
                     checks := checks (tables s) |};
        seq := id |}).

(** [List]: all rows, ORDER BY id. *)
Definition List (fault : bool) (d : DB) : result (list Monitor) :=
  if fault then Err else Ok (sort_by_id (snd <$> map_to_list (monitors d))).

(** [Update]: writes name, URL, interval and timeout of the row with the id
    of [m]; [ErrNoRows] when there is none. *)
Definition Update (fault : bool) (m : Monitor) (d : DB) : UpdateError * DB :=
  if fault then (UpdateFailed, d)
  else
    match monitors d !! ID m with
    | None => (ErrNoRows, d)
    | Some _ =>
        (UpdateNil,
         {| monitors :=
              alter (set_settings (Name m) (URL m) (IntervalSeconds m) (TimeoutSeconds m))
                    (ID m) (monitors d);
            checks := checks d |})
    end.

(** [Delete]: removes the row; its checks go with it when the connection
    enforces foreign keys ([foreign_keys]). A missing row is not an error. *)
Definition Delete (fault foreign_keys : bool) (id : Z) (d : DB) : result unit * DB :=
  if fault then (Err, d)
  else
    (Ok (),
     {| monitors := delete id (monitors d);
        checks := if foreign_keys
                  then List.filter (fun c => negb (MonitorID c =? id)) (checks d)
                  else checks d |}).

End MonitorStore.

(** The rows of a database carry their key as id, ids start at 1, and no
    key is beyond the sequence. *)
Definition keyed (s : SeqDB) : Prop :=
  0 <= seq s /\
  forall k m, monitors (tables s) !! k = Some m -> ID m = k /\ 1 <= k <= seq s.

(** The rows of a database carry their key as id. *)
Definition keyed_db (d : DB) : Prop :=
  forall k m, monitors d !! k = Some m -> ID m = k.

(** ** More of the registry (checker.go) *)

Module SupervisorOps.

Import Supervisor.

(** [Stop], up to [c.wg.Wait()]: every id of the registry is stopped. *)
Definition Stop (c : Checker) : Checker :=
  foldr stopWorker c (fst <$> map_to_list (cancel c)).

(** [Start]: a worker per listed monitor, and the pruning goroutine, which
    listens on [ctx]; nothing is started when the list cannot be read. *)
Definition Start (fault : bool) (ctx : nat) (d : DB) (c : Checker)
    : result unit * Checker * option nat :=
  match MonitorStore.List fault d with
  | Err => (Err, c, None)
  | Ok ms => (Ok (), foldl (fun c' m => startWorker ctx m c') c ms, Some ctx)
  end.

(** The context a caller handed in is cancelled (the signal context at
    shutdown; the context of an HTTP request when its handler returns). *)
Definition parent_cancelled (ctx : nat) (c : Checker) : Checker :=
  {| cancel := cancel c; loops := loops c;
     cancelled_ctx := cancelled_ctx c;
     cancelled_parent := {[ctx]} ∪ cancelled_parent c;
     next_ctx := next_ctx c |}.

(** Calls of the exported operations. *)
Inductive Op :=
| OpAdd (ctx : nat) (m : Monitor)
| OpRestart (ctx : nat) (m : Monitor)
| OpRemove (id : Z).

Definition apply_op (c : Checker) (op : Op) : Checker :=
  match op with
  | OpAdd ctx m => Add ctx m c
  | OpRestart ctx m => Restart ctx m c
  | OpRemove id => Remove id c
  end.

(** [Add] is called for ids that have no entry in the registry. *)
Fixpoint adds_fresh (c : Checker) (ops : list Op) : bool :=
  match ops with
  | [] => true
  | op :: ops' =>
      match op with
      | OpAdd _ m => bool_decide (cancel c !! ID m = None)
      | _ => true
      end && adds_fresh (apply_op c op) ops'
  end.

(** The registry knows every loop whose own context is not cancelled, and
    contexts are handed out once: those of the loops, of the registry and of
    the cancelled set are below the next one. *)
Definition consistent (c : Checker) : Prop :=
  (forall l, In l (loops c) -> (loop_ctx l < next_ctx c)%nat) /\
  NoDup (map loop_ctx (loops c)) /\
  (forall l, In l (loops c) -> loop_ctx l ∉ cancelled_ctx c ->
             cancel c !! loop_id l = Some (loop_ctx l)) /\
  (forall id tok, cancel c !! id = Some tok -> (tok < next_ctx c)%nat) /\
  (forall tok, tok ∈ cancelled_ctx c -> (tok < next_ctx c)%nat).

End SupervisorOps.

(** ** The handlers of the monitors API *)

(** [strconv.ParseInt(s, 10, 64)]: an optional sign, then decimal digits
    only, at least one; [None] stands for a syntax or a range error. *)
Definition digit_value (a : ascii) : option Z :=
  let n := Z.of_nat (nat_of_ascii a) in
  if (48 <=? n) && (n <=? 57) then Some (n - 48) else None.

Fixpoint parse_digits (s : string) (acc : Z) : option Z :=
  match s with
  | EmptyString => Some acc
  | String a s' =>
      match digit_value a with
      | Some d => parse_digits s' (acc * 10 + d)
      | None => None
      end
  end.

Definition ParseInt (s : string) : option Z :=
  match s with
  | EmptyString => None
  | String a rest =>
      let neg := Ascii.eqb a "-" in
      let body := if Ascii.eqb a "+" || neg then rest else s in
      match body with
      | EmptyString => None
      | String _ _ =>
          match parse_digits body 0 with
          | None => None
          | Some un =>
              if neg then (if un <=? 2 ^ 63 then Some (- un) else None)
              else (if un <? 2 ^ 63 then Some un else None)
          end
      end
  end.

(** parseMonitorID extracts and validates the {id} path value. *)
Definition parseMonitorID (idStr : string) : option Z :=
  match ParseInt idStr with
  | Some id => if id <=? 0 then None else Some id
  | None => None
  end.

(** The decimal numeral of a positive number, as a client writes an id
    into the path. *)
Definition decimal (p : positive) : string :=
  DecimalString.NilEmpty.string_of_uint (Pos.to_uint p).

Module Api.

(** The JSON body of a create or update request, decoded; a field that
    is missing decodes to its zero value. *)
Record MonitorReq := mkMonitorReq {
  ReqName : string;
  ReqURL : string;
  ReqIntervalSeconds : Z;
  ReqTimeoutSeconds : Z
}.

Record Server := mkServer {
  store : SeqDB;
  checker : Supervisor.Checker
}.

Inductive ErrorBody :=
| InvalidJSON
| NameAndURLRequired
| DatabaseError
| NotFound
| InvalidID
| Unauthorized.

Inductive Body :=
| BodyError (e : ErrorBody)
| BodyMonitor (m : Monitor)
| BodyEmpty.

Record Reply := mkReply {
  Code : Z;
  Content : Body
}.

Section Handlers.

(** [strings.TrimSpace]. *)
Variable TrimSpace : string -> string.

(** handleMonitorCreate handles POST /api/monitors. [body] is [None] when
    the JSON does not decode; [ctx] is the context of the request. *)
Definition handleMonitorCreate (fault : bool) (ctx : nat) (body : option MonitorReq)
    (s : Server) : Reply * Server :=
  match body with
  | None => (mkReply 400 (BodyError InvalidJSON), s)
  | Some req =>
      if String.eqb (TrimSpace (ReqName req)) "" || String.eqb (TrimSpace (ReqURL req)) ""
      then (mkReply 400 (BodyError NameAndURLRequired), s)
      else
        let interval :=
          if ReqIntervalSeconds req <=? 0 then 60 else ReqIntervalSeconds req in
        let timeout :=
          if ReqTimeoutSeconds req <=? 0 then 10 else ReqTimeoutSeconds req in
        let m := {| ID := 0; Name := TrimSpace (ReqName req);
                    URL := TrimSpace (ReqURL req);
                    IntervalSeconds := interval; TimeoutSeconds := timeout;
                    State := ""; ConsecutiveFailures := 0 |} in
        match MonitorStore.Create fault m (store s) with
        | (Err, _) => (mkReply 500 (BodyError DatabaseError), s)
        | (Ok row, db') =>
            (mkReply 201 (BodyMonitor row),
             {| store := db'; checker := Supervisor.Add ctx row (checker s) |})
        end
  end.


(** handleMonitorDelete handles DELETE /api/monitors/{id}. *)
Definition handleMonitorDelete (fault foreign_keys : bool) (idStr : string)
    (s : Server) : Reply * Server :=
  match parseMonitorID idStr with
  | None => (mkReply 400 (BodyError InvalidID), s)
  | Some id =>
      let c' := Supervisor.Remove id (checker s) in
      match MonitorStore.Delete fault foreign_keys id (tables (store s)) with
      | (Err, _) =>
          (mkReply 500 (BodyError DatabaseError), {| store := store s; checker := c' |})
      | (Ok _, d') =>
          (mkReply 204 BodyEmpty,
           {| store := {| tables := d'; seq := seq (store s) |}; checker := c' |})
      end
  end.

End Handlers.

End Api.

(** ** Sessions (auth.go) and the guard of the API (server.go) *)

Module Auth.

(** Times are nanoseconds on the monotonic clock; [sessionDuration] is 24
    hours. A store maps a token to the time its session was created. *)
Definition sessionDuration : Z := 24 * 3600 * 1000000000.

Definition hex_digit (n : N) : ascii :=
  match String.get (N.to_nat n) "0123456789abcdef" with
  | Some a => a
  | None => "0"%char
  end.

(** [hex.EncodeToString]. *)
Fixpoint EncodeToString (b : list Byte.byte) : string :=
  match b with
  | [] => EmptyString
  | x :: b' =>
      String (hex_digit (N.div (Byte.to_N x) 16))
        (String (hex_digit (N.modulo (Byte.to_N x) 16)) (EncodeToString b'))
  end.

(** [Create]: [random] is what [rand.Read] filled the 32 bytes with, [None]
    when it failed. *)
Definition Create (random : option (list Byte.byte)) (now : Z)
    (sessions : gmap string Z) : result string * gmap string Z :=
  match random with
  | None => (Err, sessions)
  | Some b =>
      let token := EncodeToString b in
      (Ok token, <[token := now]> sessions)
  end.

Definition Valid (token : string) (now : Z) (sessions : gmap string Z) : bool :=
  if String.eqb token "" then false
  else
    match sessions !! token with
    | Some createdAt => now - createdAt <? sessionDuration
    | None => false
    end.

Definition Delete (token : string) (sessions : gmap string Z) : gmap string Z :=
  delete token sessions.

(** One round of [cleanup]: the sessions older than the duration go. *)
Definition cleanup (now : Z) (sessions : gmap string Z) : gmap string Z :=
  filter (fun p => ~ (now - snd p > sessionDuration)) sessions.

(** [GetSessionToken]: the value of the session cookie, empty without one. *)
Definition GetSessionToken (cookie : option string) : string :=
  match cookie with
  | Some v => v
  | None => ""
  end.

(** [requireAuthAPI]: 401 without a valid session, the handler otherwise.
    [S] is what the handler works on. *)
Definition requireAuthAPI {S : Type} (next : S -> Api.Reply * S)
    (cookie : option string) (now : Z) (sessions : gmap string Z) (s : S)
    : Api.Reply * S :=
  if Valid (GetSessionToken cookie) now sessions then next s
  else (Api.mkReply 401 (Api.BodyError Api.Unauthorized), s).

End Auth.

(** ** Configuration defaults *)

Module Config.

Record ServerConfig := mkServerConfig {
  Host : string;
  Port : Z;
  DataDir : string
}.

(** [applyDefaults], on the server part it touches. *)
Definition applyDefaults (c : ServerConfig) : ServerConfig :=
  {| Host := if String.eqb (Host c) "" then "0.0.0.0" else Host c;
     Port := if Port c =? 0 then 8080 else Port c;
     DataDir := if String.eqb (DataDir c) "" then "/data" else DataDir c |}.

End Config.

(** * Properties *)

(** ** Go's [int] *)

Lemma wrap_in_range z : GoInt.in_range (GoInt.wrap z).
Proof.
  unfold GoInt.in_range, GoInt.wrap, GoInt.min_int, GoInt.max_int.
  pose proof (Z.mod_pos_bound (z + 2 ^ 63) (2 ^ 64) ltac:(lia)). lia.
Qed.

Lemma wrap_id z : GoInt.in_range z -> GoInt.wrap z = z.
Proof.
  unfold GoInt.in_range, GoInt.wrap, GoInt.min_int, GoInt.max_int. intros H.
  rewrite Z.mod_small; lia.
Qed.

Lemma add_no_overflow a b : GoInt.in_range (a + b) -> GoInt.add a b = a + b.
Proof. apply wrap_id. Qed.

Lemma add_max_int_1 : GoInt.add GoInt.max_int 1 = GoInt.min_int.
Proof. reflexivity. Qed.

(** ** The decision of [updateState] *)

Lemma next_state_up s f : next_state s f true = (state_up, 0).
Proof. reflexivity. Qed.

Lemma next_state_fail s f :
  next_state s f false =
  (if failureThreshold <=? GoInt.add f 1 then state_down else s, GoInt.add f 1).
Proof. unfold next_state. now destruct (failureThreshold <=? GoInt.add f 1). Qed.

(** A pair the decision yields never has the threshold reached and a state
    other than "down". *)
Lemma next_state_threshold s f isUp st fl :
  next_state s f isUp = (st, fl) -> failureThreshold <= fl -> st = state_down.
Proof.
  unfold next_state, failureThreshold. destruct isUp.
  - intros [= <- <-]. lia.
  - destruct (3 <=? GoInt.add f 1) eqn:E; intros [= <- <-]; [reflexivity | lia].
Qed.

(** C3. The decision of the state tracker, for a stored state [s] (any string,
    so also "unknown", "up" and "down") and a stored count [f] >= 0 of type
    int: a probe that is up yields ("up", 0); a probe that is not yields the
    count plus one (the addition of Go's int, which is [f + 1] unless [f] is
    the largest int) and state "down" when the new count is at least 3, the
    stored state otherwise; a monitor in ("unknown", 0) goes to ("unknown", 1)
    on its first failing probe. *)
Theorem next_state_decision (s : string) (f : Z) :
  0 <= f <= GoInt.max_int ->
  next_state s f true = ("up", 0) /\
  next_state s f false =
    (if 3 <=? GoInt.add f 1 then "down" else s, GoInt.add f 1) /\
  (f < GoInt.max_int -> GoInt.add f 1 = f + 1) /\
  next_state "unknown" 0 false = ("unknown", 1).
Proof.
  intros Hf. split; [apply next_state_up |].
  split; [apply next_state_fail |].
  split; [| reflexivity].
  intros Hlt. apply add_no_overflow.
  unfold GoInt.in_range, GoInt.min_int, GoInt.max_int in *. lia.
Qed.

Lemma next_state_decision_witness :
  0 <= 2 <= GoInt.max_int /\
  next_state "up" 2 false = ("down", 3) /\
  next_state "down" 2 true = ("up", 0).
Proof.
  assert (H : 0 <= 2 <= GoInt.max_int) by (unfold GoInt.max_int; lia).
  split; [exact H |].
  destruct (next_state_decision "up" 2 H) as (_ & Hfail & _ & _).
  destruct (next_state_decision "down" 2 H) as (Hup & _).
  split; [rewrite Hfail; reflexivity | exact Hup].
Defined.

(** ** The redirect loop under [CheckRedirect] *)

Section ClientFacts.

Variable urlParses : string -> bool.
Variable server : string -> option Response.

Lemma CheckRedirect_cases req via :
  CheckRedirect req via = PolicyNil /\ (length via < 10)%nat \/
  CheckRedirect req via = ErrUseLastResponse /\ (10 <= length via)%nat.
Proof.
  unfold CheckRedirect. destruct (10 <=? Z.of_nat (length via)) eqn:E.
  - right. apply Z.leb_le in E. split; [reflexivity | lia].
  - left. apply Z.leb_gt in E. split; [reflexivity | lia].
Qed.

Lemma followable_inv resp :
  followable urlParses resp = true ->
  shouldRedirect (RespStatusCode resp) = true /\
  exists loc, Location resp = Some loc /\ String.eqb loc "" = false /\
              urlParses loc = true.
Proof.
  unfold followable. rewrite andb_true_iff. intros [H1 H2]. split; [exact H1 |].
  destruct (Location resp) as [loc |]; [| discriminate].
  apply andb_true_iff in H2. destruct H2 as [H2 H3]. apply negb_true_iff in H2. eauto.
Qed.

(** What the loop returns when it starts below the cap with fuel to reach
    it: it never runs out of fuel; the requests it sends start with [req] and
    each follows the one before; it stops at the tenth; the response it
    returns answers the last request sent; an answer that can be followed
    ends the loop only at the cap, and is then returned; no answer is an
    error. *)
Lemma do_loop_CheckRedirect fuel : forall req reqs r sent,
  (length reqs < 10)%nat ->
  (10 <= length reqs + fuel)%nat ->
  do_loop urlParses CheckRedirect server fuel req reqs = (r, sent) ->
  r <> DoOutOfFuel /\
  (exists more, sent = reqs ++ req :: more /\
                followed_chain urlParses server req more) /\
  (length sent <= 10)%nat /\
  (forall resp, r = DoResp resp -> server (List.last sent "") = Some resp) /\
  (forall resp, server (List.last sent "") = Some resp ->
                followable urlParses resp = true ->
                length sent = 10%nat /\ r = DoResp resp) /\
  (server (List.last sent "") = None -> r = DoErr).
Proof.
  induction fuel as [| fuel IH]; intros req reqs r sent Hlen Hfuel Hdo.
  - lia.
  - cbn [do_loop] in Hdo.
    assert (Hlen' : length (reqs ++ [req]) = S (length reqs))
      by (rewrite length_app; cbn; lia).
    assert (Hlast : List.last (reqs ++ [req]) "" = req) by apply last_last.
    assert (Hone : exists more, reqs ++ [req] = reqs ++ req :: more /\
                                followed_chain urlParses server req more)
      by (exists []; split; [reflexivity | exact I]).
    destruct (server req) as [resp0 |] eqn:Hsrv.
    2:{ injection Hdo as <- <-. rewrite Hlast, Hlen', Hsrv.
        split; [discriminate |]. split; [exact Hone |]. split; [lia |].
        split; [discriminate |]. split; [discriminate | reflexivity]. }
    destruct (followable urlParses resp0) eqn:Hfol.
    + (* a redirect that can be followed *)
      destruct (followable_inv _ Hfol) as (Hred & loc & Hloc & Hne & Hparse).
      rewrite Hred, Hloc, Hne, Hparse in Hdo.
      assert (Hstep : follows urlParses server req loc) by (exists resp0; auto).
      destruct (CheckRedirect_cases loc (reqs ++ [req])) as [[Hp Hlt] | [Hp Hge]];
        rewrite Hp in Hdo.
      * apply IH in Hdo; [| lia | lia].
        destruct Hdo as (H1 & (more & Hsent & Hchain) & H3 & H4 & H5 & H6).
        split; [assumption |]. split; [| auto].
        exists (loc :: more). rewrite Hsent, <- app_assoc. split; [reflexivity |].
        split; assumption.
      * injection Hdo as <- <-. rewrite Hlast, Hlen', Hsrv.
        split; [discriminate |]. split; [exact Hone |]. split; [lia |].
        split; [intros resp [= <-]; reflexivity |].
        split; [| discriminate].
        intros resp [= <-] _. split; [lia | reflexivity].
    + (* any other answer ends the loop *)
      assert (Hend : r = DoErr /\ sent = reqs ++ [req] \/
                     r = DoResp resp0 /\ sent = reqs ++ [req]).
      { unfold followable in Hfol.
        destruct (shouldRedirect (RespStatusCode resp0)); [| injection Hdo; auto].
        destruct (Location resp0) as [loc |]; [| injection Hdo; auto].
        destruct (String.eqb loc ""); [injection Hdo; auto |].
        destruct (urlParses loc); [discriminate | injection Hdo; auto]. }
      destruct Hend as [[-> ->] | [-> ->]]; rewrite Hlast, Hlen', Hsrv.
      * split; [discriminate |]. split; [exact Hone |]. split; [lia |].
        split; [discriminate |]. split; [| discriminate].
        intros resp [= <-] Hf. congruence.
      * split; [discriminate |]. split; [exact Hone |]. split; [lia |].
        split; [intros resp [= <-]; reflexivity |]. split; [| discriminate].
        intros resp [= <-] Hf. congruence.
Qed.

Lemma client_Do_spec url r sent :
  client_Do urlParses server url = (r, sent) ->
  r <> DoOutOfFuel /\
  (exists more, sent = url :: more /\ followed_chain urlParses server url more) /\
  (length sent <= 10)%nat /\
  (forall resp, r = DoResp resp -> server (List.last sent "") = Some resp) /\
  (forall resp, server (List.last sent "") = Some resp ->
                followable urlParses resp = true ->
                length sent = 10%nat /\ r = DoResp resp) /\
  (server (List.last sent "") = None -> r = DoErr).
Proof.
  unfold client_Do, redirect_fuel. intros Hdo.
  apply do_loop_CheckRedirect in Hdo; cbn [length]; try lia. exact Hdo.
Qed.

(** More fuel changes nothing. *)
Lemma do_loop_fuel fuel : forall req reqs,
  (length reqs < 10)%nat ->
  (10 <= length reqs + fuel)%nat ->
  do_loop urlParses CheckRedirect server (S fuel) req reqs =
  do_loop urlParses CheckRedirect server fuel req reqs.
Proof.
  induction fuel as [| fuel IH]; intros req reqs Hlen Hfuel; [lia |].
  cbn [do_loop].
  destruct (server req) as [resp0 |]; [| reflexivity].
  destruct (shouldRedirect (RespStatusCode resp0)); [| reflexivity].
  destruct (Location resp0) as [loc |]; [| reflexivity].
  destruct (String.eqb loc ""); [reflexivity |].
  destruct (urlParses loc); [| reflexivity].
  destruct (CheckRedirect_cases loc (reqs ++ [req])) as [[Hp Hlt] | [Hp Hge]];
    rewrite Hp; [| reflexivity].
  assert (Hlen' : length (reqs ++ [req]) = S (length reqs))
    by (rewrite length_app; cbn; lia).
  change (do_loop urlParses CheckRedirect server (S fuel) loc (reqs ++ [req]) =
          do_loop urlParses CheckRedirect server fuel loc (reqs ++ [req])).
  apply IH; lia.
Qed.

End ClientFacts.

(** ** One tick of a worker *)

Section CheckerFacts.

Variable urlParses : string -> bool.

(** The three ways [updateState] can go. *)
Lemma updateState_no_row env id isUp d :
  get_fault env = true \/ monitors d !! id = None ->
  updateState env id isUp d = (tt, d, [EvGet id]).
Proof.
  unfold updateState, bind, store_Get, Store.Get.
  intros [-> | Hnone]; [reflexivity |].
  destruct (get_fault env); [reflexivity |]. now rewrite Hnone.
Qed.

Lemma updateState_row env id isUp d m :
  get_fault env = false -> monitors d !! id = Some m ->
  updateState env id isUp d =
  let '(st, fl) := next_state (State m) (ConsecutiveFailures m) isUp in
  if update_fault env then
    (tt, d, [EvGet id; EvUpdateState id st fl; EvLog (LogUpdateState id)])
  else
    (tt, {| monitors := alter (set_state st fl) id (monitors d); checks := checks d |},
     [EvGet id; EvUpdateState id st fl]).
Proof.
  unfold updateState, bind, store_Get, Store.Get. intros -> ->.
  destruct (next_state (State m) (ConsecutiveFailures m) isUp) as [st fl].
  unfold store_UpdateState, Store.UpdateState.
  destruct (update_fault env); reflexivity.
Qed.

(** The three ways [probe] can go. *)
Lemma probe_bad_url env id url d :
  urlParses url = false ->
  probe urlParses env id url d = (tt, d, [EvLog (LogBuildRequest id url)]).
Proof. unfold probe. now intros ->. Qed.

Lemma probe_record_fails env id url d :
  urlParses url = true -> record_fault env = true ->
  probe urlParses env id url d =
  let '(r, sent) := client_Do urlParses (server env) url in
  (tt, d, [EvDo sent; EvRecordCheck (make_check id (elapsed_ms env) r);
           EvLog (LogRecordCheck id)]).
Proof.
  unfold probe. intros -> Hrec. cbn [negb].
  destruct (client_Do urlParses (server env) url) as [r sent].
  unfold bind, emit, store_RecordCheck, Store.RecordCheck. now rewrite Hrec.
Qed.

Lemma probe_recorded env id url d :
  urlParses url = true -> record_fault env = false ->
  probe urlParses env id url d =
  let '(r, sent) := client_Do urlParses (server env) url in
  let check := make_check id (elapsed_ms env) r in
  let '(u, d', t) :=
    updateState env id (IsUp check)
      {| monitors := monitors d;
         checks := prune_old_checks (expired env) (checks d) ++ [check] |} in
  (u, d', [EvDo sent; EvRecordCheck check] ++ t).
Proof.
  unfold probe. intros -> Hrec. cbn [negb].
  destruct (client_Do urlParses (server env) url) as [r sent].
  unfold bind at 1 2. unfold emit, store_RecordCheck, Store.RecordCheck.
  rewrite Hrec.
  destruct (updateState _ _ _ _) as [[u d'] t]. reflexivity.
Qed.

(** Every write of [updateState] is a pair the decision produced. *)
Lemma updateState_calls env id isUp d e :
  In e (calls (updateState env id isUp d)) ->
  e = EvGet id \/ e = EvLog (LogUpdateState id) \/
  exists s f, e = EvUpdateState id (fst (next_state s f isUp)) (snd (next_state s f isUp)).
Proof.
  destruct (get_fault env) eqn:Hg.
  { rewrite updateState_no_row by auto. cbn. intuition. }
  destruct (monitors d !! id) as [m |] eqn:Hm.
  2:{ rewrite updateState_no_row by auto. cbn. intuition. }
  rewrite (updateState_row _ _ _ _ m) by assumption.
  destruct (next_state (State m) (ConsecutiveFailures m) isUp) as [st fl] eqn:Hn.
  assert (Hex : exists s f, EvUpdateState id st fl =
                  EvUpdateState id (fst (next_state s f isUp)) (snd (next_state s f isUp))).
  { exists (State m), (ConsecutiveFailures m). now rewrite Hn. }
  destruct (update_fault env); cbn; intros H;
    repeat (destruct H as [<- | H]; [auto |]); contradiction.
Qed.

Lemma probe_calls env id url d e :
  In e (calls (probe urlParses env id url d)) ->
  e = EvLog (LogBuildRequest id url) \/
  e = EvDo (snd (client_Do urlParses (server env) url)) \/
  e = EvRecordCheck
        (make_check id (elapsed_ms env) (fst (client_Do urlParses (server env) url))) \/
  e = EvLog (LogRecordCheck id) \/
  e = EvGet id \/ e = EvLog (LogUpdateState id) \/
  exists s f isUp,
    e = EvUpdateState id (fst (next_state s f isUp)) (snd (next_state s f isUp)).
Proof.
  destruct (urlParses url) eqn:Hu.
  2:{ rewrite probe_bad_url by assumption. cbn. intuition. }
  destruct (record_fault env) eqn:Hr.
  - rewrite probe_record_fails by assumption.
    destruct (client_Do urlParses (server env) url) as [r sent]. cbn. intuition.
  - rewrite probe_recorded by assumption.
    destruct (client_Do urlParses (server env) url) as [r sent]. cbn [fst snd].
    destruct (updateState _ _ _ _) as [[u d'] t] eqn:Hus.
    unfold calls. cbn [snd]. intros [<- | [<- | H]]; auto 10.
    change t with (calls (u, d', t)) in H. rewrite <- Hus in H.
    apply updateState_calls in H. destruct H as [-> | [-> | (s & f & ->)]]; auto 10.
    do 6 right. eauto.
Qed.

(** The calls of a run of the loop are those of its probes. *)
Lemma worker_calls ticks : forall id url d e,
  In e (calls (worker urlParses ticks id url d)) ->
  exists env d', In env ticks /\ In e (calls (probe urlParses env id url d')).
Proof.
  induction ticks as [| env ticks IH]; intros id url d e.
  - cbn. contradiction.
  - cbn [worker]. unfold bind.
    destruct (probe urlParses env id url d) as [[u d1] t1] eqn:Hp.
    destruct (worker urlParses ticks id url d1) as [[u2 d2] t2] eqn:Hw.
    unfold calls. cbn [snd]. intros H. apply in_app_or in H. destruct H as [H | H].
    + exists env, d. split; [now left |]. now rewrite Hp.
    + change t2 with (calls (u2, d2, t2)) in H. rewrite <- Hw in H.
      apply IH in H. destruct H as (env' & d' & Hin & He).
      exists env', d'. split; [now right | assumption].
Qed.

(** The checker never calls the alerter. *)
Lemma worker_never_notifies ticks id url d m :
  ~ In (EvNotify m) (calls (worker urlParses ticks id url d)).
Proof.
  intros H. apply worker_calls in H. destruct H as (env & d' & _ & H).
  apply probe_calls in H.
  repeat (destruct H as [H | H]; [discriminate |]).
  destruct H as (s & f & isUp & H). discriminate.
Qed.

End CheckerFacts.

(** ** Claims about a tick *)

(** C4. Every check a probe records is up exactly when the client received a
    response with a status code in [200, 400); when the exchange ended in a
    transport error or a timeout the check is not up, has no status code, and
    carries the elapsed time of the attempt as its response time. The
    exchange ends in one of the two ways. *)
Theorem probe_check_classification urlParses env id url d c :
  In (EvRecordCheck c) (calls (probe urlParses env id url d)) ->
  let r := fst (client_Do urlParses (server env) url) in
  (r = DoErr \/ exists resp, r = DoResp resp) /\
  (IsUp c = true <->
   exists resp, r = DoResp resp /\ 200 <= RespStatusCode resp < 400) /\
  (r = DoErr ->
   IsUp c = false /\ StatusCode c = None /\ ResponseTimeMs c = Some (elapsed_ms env)).
Proof.
  intros Hin r. apply probe_calls in Hin.
  assert (Hc : c = make_check id (elapsed_ms env) r).
  { repeat (destruct Hin as [Hin | Hin]; try discriminate).
    - now injection Hin.
    - destruct Hin as (s & f & isUp & Hin). discriminate. }
  assert (Hfuel : r <> DoOutOfFuel).
  { subst r. destruct (client_Do urlParses (server env) url) as [r0 sent] eqn:Hdo.
    apply client_Do_spec in Hdo. apply Hdo. }
  subst c. destruct r as [resp | |]; [| | contradiction]; cbn.
  - split; [right; eauto |]. split; [| discriminate].
    rewrite andb_true_iff, Z.leb_le, Z.ltb_lt. split.
    + intros H. exists resp. split; [reflexivity | lia].
    + intros (resp' & [= <-] & H). lia.
  - split; [now left |]. split; [| auto].
    split; [discriminate |]. intros (resp & H & _). discriminate.
Qed.

Lemma probe_check_classification_witness :
  In (EvRecordCheck (mkCheck 1 None (Some 37) false))
     (calls (probe parse_ctl (env_refused 37 false) 1 good_url (db_1 "up" 0))) /\
  (IsUp (mkCheck 1 None (Some 37) false) = true <->
   exists resp, fst (client_Do parse_ctl refused good_url) = DoResp resp /\
                200 <= RespStatusCode resp < 400).
Proof.
  assert (H : In (EvRecordCheck (mkCheck 1 None (Some 37) false))
     (calls (probe parse_ctl (env_refused 37 false) 1 good_url (db_1 "up" 0)))).
  { vm_compute. right. left. reflexivity. }
  split; [exact H |].
  exact (proj1 (proj2 (probe_check_classification _ _ _ _ _ _ H))).
Defined.

(** C5. Every pair the worker writes through [UpdateState] respects the
    threshold: a count of 3 or more goes with state "down". The write sets
    the two columns of the row in one statement: afterwards a row has either
    both new values or, when the statement failed or the row is another one,
    both old ones. *)
Theorem written_pairs_invariant urlParses ticks id url d :
  Forall written_pair_ok (calls (worker urlParses ticks id url d)) /\
  (forall fault i st fl d0 j,
     monitors (snd (Store.UpdateState fault i st fl d0)) !! j =
     if fault then monitors d0 !! j
     else if decide (j = i) then set_state st fl <$> monitors d0 !! j
          else monitors d0 !! j).
Proof.
  split.
  - apply List.Forall_forall. intros e He.
    apply worker_calls in He. destruct He as (env & d' & _ & He).
    apply probe_calls in He.
    repeat (destruct He as [-> | He]; [exact I |]).
    destruct He as (s & f & isUp & ->). cbn.
    apply (next_state_threshold s f isUp). apply surjective_pairing.
  - intros fault i st fl d0 j. unfold Store.UpdateState.
    destruct fault; cbn [snd monitors]; [reflexivity |].
    destruct (decide (j = i)) as [-> | Hne].
    + apply lookup_alter_eq.
    + now apply lookup_alter_ne.
Qed.

Lemma worker_cons urlParses env ticks id url d :
  worker urlParses (env :: ticks) id url d =
  let '(u, d', t) := worker urlParses ticks id url
                       (db_after (probe urlParses env id url d)) in
  (u, d', calls (probe urlParses env id url d) ++ t).
Proof.
  cbn [worker]. unfold bind, db_after, calls.
  destruct (probe urlParses env id url d) as [[u1 d1] t1]. reflexivity.
Qed.

(** C7. A tick in which [RecordCheck] returns an error ends there: the
    database is as it was, so the state and the failure count of the monitor
    too, the tick reads no monitor and writes no state, it calls
    [RecordCheck] once, and the loop goes on with the following ticks from the
    same database. *)
Theorem record_failure_abandons_tick urlParses env ticks id url d :
  urlParses url = true ->
  record_fault env = true ->
  let tick := probe urlParses env id url d in
  db_after tick = d /\
  List.filter is_get (calls tick) = [] /\
  List.filter is_update (calls tick) = [] /\
  length (List.filter is_record (calls tick)) = 1%nat /\
  worker urlParses (env :: ticks) id url d =
    (let '(u, d', t) := worker urlParses ticks id url d in (u, d', calls tick ++ t)).
Proof.
  intros Hu Hr tick.
  assert (Htick : tick =
    (tt, d, [EvDo (snd (client_Do urlParses (server env) url));
             EvRecordCheck (make_check id (elapsed_ms env)
                              (fst (client_Do urlParses (server env) url)));
             EvLog (LogRecordCheck id)])).
  { subst tick. rewrite probe_record_fails by assumption.
    now destruct (client_Do urlParses (server env) url). }
  assert (Hdb : db_after tick = d) by now rewrite Htick.
  split; [exact Hdb |].
  split; [now rewrite Htick |].
  split; [now rewrite Htick |].
  split; [now rewrite Htick |].
  rewrite worker_cons. fold tick. now rewrite Hdb.
Qed.

Lemma record_failure_abandons_tick_witness :
  parse_ctl good_url = true /\
  record_fault (env_refused 37 true) = true /\
  db_after (probe parse_ctl (env_refused 37 true) 1 good_url (db_1 "up" 2)) = db_1 "up" 2.
Proof.
  split; [reflexivity |]. split; [reflexivity |].
  exact (proj1 (record_failure_abandons_tick parse_ctl (env_refused 37 true)
                  [] 1 good_url (db_1 "up" 2) eq_refl eq_refl)).
Defined.

(** C10. When the request of a monitor cannot be built, every tick only
    logs: whatever the ticks meet, the loop leaves the database as it
    found it (no check recorded, no state or count written) and its calls are
    one log line per tick. *)
Theorem unbuildable_request_only_logs urlParses ticks id url d :
  urlParses url = false ->
  worker urlParses ticks id url d =
  (tt, d, repeat (EvLog (LogBuildRequest id url)) (length ticks)).
Proof.
  intros Hu. revert d. induction ticks as [| env ticks IH]; intros d.
  - reflexivity.
  - rewrite worker_cons, probe_bad_url by assumption.
    unfold db_after, calls. cbn [fst snd]. now rewrite IH.
Qed.

Lemma unbuildable_request_only_logs_witness :
  parse_ctl bad_url = false /\
  worker parse_ctl [env_refused 5 false; env_refused 7 true] 1 bad_url (db_1 "unknown" 0) =
  (tt, db_1 "unknown" 0,
   [EvLog (LogBuildRequest 1 bad_url); EvLog (LogBuildRequest 1 bad_url)]).
Proof.
  split; [reflexivity |].
  exact (unbuildable_request_only_logs parse_ctl
           [env_refused 5 false; env_refused 7 true] 1 bad_url (db_1 "unknown" 0) eq_refl).
Defined.

(** C1. The tick that takes a monitor from "up" with two failures to "down":
    the third failing probe writes ("down", 3), and the calls of the tick are
    the exchange, the insert of the check, the read and the write of the
    state. The alerter is not called. *)
Theorem down_transition_without_notify :
  let tick := probe parse_ctl (env_refused 37 false) 1 good_url (db_1 "up" 2) in
  monitors (db_after tick) !! 1 = Some (monitor_1 "down" 3) /\
  calls tick =
    [EvDo [good_url]; EvRecordCheck (mkCheck 1 None (Some 37) false);
     EvGet 1; EvUpdateState 1 "down" 3] /\
  List.filter is_notify (calls tick) = [].
Proof. vm_compute. repeat split. Qed.

(** ** The redirect cap *)

(** C6, as stated, fails on a chain of eleven redirects: the client sends ten
    requests and returns the tenth response, the redirect to "/10", with a nil
    error; the eleventh redirect response, the one of "/10", is never
    fetched. *)
Lemma tenth_redirect_is_final :
  client_Do parse_ctl (serve redirect_chain) "/0" =
    (DoResp (mkResponse 302 (Some "/10")),
     ["/0"; "/1"; "/2"; "/3"; "/4"; "/5"; "/6"; "/7"; "/8"; "/9"]) /\
  serve redirect_chain "/10" = Some (mkResponse 307 (Some "/11")) /\
  fst (client_Do parse_ctl (serve redirect_chain) "/0") <>
    DoResp (mkResponse 307 (Some "/11")).
Proof. vm_compute. repeat split. discriminate. Qed.

(** C6, amended. The client follows redirects up to a cap of ten requests:
    the requests it sends start with the URL of the monitor and each goes to
    the Location of the redirect that answered the one before; there are at
    most ten, so at most nine redirects are followed; an answer that is a
    redirect that can be followed ends the exchange only as the tenth answer,
    and is then returned as the final response with a nil error; the
    response returned is always the answer to the last request sent. *)
Theorem redirect_cap urlParses server url :
  let r := fst (client_Do urlParses server url) in
  let sent := snd (client_Do urlParses server url) in
  (exists more, sent = url :: more /\ followed_chain urlParses server url more) /\
  (length sent <= 10)%nat /\
  (forall resp, server (List.last sent "") = Some resp ->
                followable urlParses resp = true ->
                length sent = 10%nat /\ r = DoResp resp) /\
  (forall resp, r = DoResp resp -> server (List.last sent "") = Some resp).
Proof.
  intros r sent.
  destruct (client_Do_spec urlParses server url r sent)
    as (_ & Hchain & Hlen & Hlast & Hcap & _).
  { subst r sent. now destruct (client_Do urlParses server url). }
  split; [exact Hchain |]. split; [exact Hlen |]. split; [exact Hcap | exact Hlast].
Qed.

Lemma redirect_cap_witness :
  serve redirect_chain
    (List.last (snd (client_Do parse_ctl (serve redirect_chain) "/0")) "") =
    Some (mkResponse 302 (Some "/10")) /\
  followable parse_ctl (mkResponse 302 (Some "/10")) = true /\
  length (snd (client_Do parse_ctl (serve redirect_chain) "/0")) = 10%nat /\
  fst (client_Do parse_ctl (serve redirect_chain) "/0") =
    DoResp (mkResponse 302 (Some "/10")).
Proof.
  split; [reflexivity |]. split; [reflexivity |].
  exact (proj1 (proj2 (proj2 (redirect_cap parse_ctl (serve redirect_chain) "/0")))
           (mkResponse 302 (Some "/10")) eq_refl eq_refl).
Defined.

(** ** The webhook *)

Section AlerterFacts.

Import Alerter.

Lemma Notify_configured a m now endpoint :
  webhookURL a <> "" ->
  Notify a m now endpoint =
  let payload := mkAlertPayload (Name m) (URL m) "down" now in
  ALog LogSending :: APost (webhookURL a) payload ::
  match endpoint 0%nat with
  | PostResp _ => []
  | PostErr =>
      [ALog LogFailedRetrying; ASleep 5; APost (webhookURL a) payload;
       ALog match endpoint 1%nat with
            | PostErr => LogRetryFailed
            | PostResp _ => LogRetrySucceeded
            end]
  end.
Proof.
  intros Hurl. unfold Notify. apply String.eqb_neq in Hurl. rewrite Hurl.
  unfold post. destruct (endpoint 0%nat); [| reflexivity].
  destruct (endpoint 1%nat); reflexivity.
Qed.

End AlerterFacts.

(** C2. The endpoint answers HTTP 500 to the first POST and would answer 200
    to a retry: [Notify] posts once, does not wait and does not retry,
    because [post] does not look at the status code of the response. *)
Lemma http_500_is_not_retried :
  Alerter.Notify hook (monitor_1 "down" 3) "2026-01-01T00:00:00Z" http_500_then_200 =
    [Alerter.ALog Alerter.LogSending;
     Alerter.APost "https://hooks.example.com/alert"
       (Alerter.mkAlertPayload "api" good_url "down" "2026-01-01T00:00:00Z")] /\
  Alerter.attempts
    (Alerter.Notify hook (monitor_1 "down" 3) "2026-01-01T00:00:00Z" http_500_then_200)
    <> 2%nat.
Proof. vm_compute. split; [reflexivity | discriminate]. Qed.

(** What [Notify] does with a webhook URL configured: one or two delivery
    attempts. When the first POST returns an error it waits 5 seconds and
    posts once more, then logs the outcome of the retry and stops, also when
    the retry fails. When the first POST gets a response, whatever its status
    code, there is no wait and no retry. *)
Theorem notify_retry_policy a m now endpoint :
  Alerter.webhookURL a <> "" ->
  let t := Alerter.Notify a m now endpoint in
  let payload := Alerter.mkAlertPayload (Name m) (URL m) "down" now in
  (1 <= Alerter.attempts t <= 2)%nat /\
  (endpoint 0%nat = Alerter.PostErr ->
   Alerter.attempts t = 2%nat /\
   t = [Alerter.ALog Alerter.LogSending; Alerter.APost (Alerter.webhookURL a) payload;
        Alerter.ALog Alerter.LogFailedRetrying; Alerter.ASleep 5;
        Alerter.APost (Alerter.webhookURL a) payload;
        Alerter.ALog match endpoint 1%nat with
                     | Alerter.PostErr => Alerter.LogRetryFailed
                     | Alerter.PostResp _ => Alerter.LogRetrySucceeded
                     end]) /\
  (forall status, endpoint 0%nat = Alerter.PostResp status ->
   t = [Alerter.ALog Alerter.LogSending; Alerter.APost (Alerter.webhookURL a) payload]).
Proof.
  intros Hurl t payload. subst t.
  rewrite Notify_configured by assumption. fold payload.
  destruct (endpoint 0%nat) as [| status0] eqn:E0.
  - split; [cbn; lia |]. split; [| discriminate].
    intros _. split; reflexivity.
  - split; [cbn; lia |]. split; [discriminate |].
    intros status _. reflexivity.
Qed.

Lemma notify_retry_policy_witness :
  Alerter.webhookURL hook <> "" /\
  no_connection 0%nat = Alerter.PostErr /\
  Alerter.attempts
    (Alerter.Notify hook (monitor_1 "down" 3) "2026-01-01T00:00:00Z" no_connection)
    = 2%nat.
Proof.
  assert (H : Alerter.webhookURL hook <> "") by discriminate.
  split; [exact H |]. split; [reflexivity |].
  exact (proj1 (proj1 (proj2 (notify_retry_policy hook (monitor_1 "down" 3)
                                "2026-01-01T00:00:00Z" no_connection H)) eq_refl)).
Defined.

(** ** The registry of workers *)

Section SupervisorFacts.

Import Supervisor.

(** [Add] starts one loop and cancels none. *)
Lemma Add_loops ctx m c :
  loops (Add ctx m c) =
  loops c ++ [{| loop_id := ID m; loop_parent := ctx; loop_ctx := next_ctx c |}].
Proof. reflexivity. Qed.

Lemma Add_keeps_running ctx m c l :
  In l (running c) -> In l (running (Add ctx m c)).
Proof.
  unfold running. rewrite !filter_In. intros [Hin Hrun].
  split; [| exact Hrun]. rewrite Add_loops. apply in_or_app. now left.
Qed.

End SupervisorFacts.

(** C8, as stated, fails when [Add] is called twice for monitor 1: two loops
    for the id run side by side, the registry knows the second only, and
    after [Remove] the first is still running with no entry left to cancel
    it. *)
Theorem add_twice_leaks_loop :
  let c1 := Supervisor.Add 0%nat (monitor_1 "unknown" 0) Supervisor.NewChecker in
  let c2 := Supervisor.Add 0%nat (monitor_1 "unknown" 0) c1 in
  length (Supervisor.running_for 1 c1) = 1%nat /\
  Supervisor.running_for 1 c2 =
    [Supervisor.mkLoop 1 0 0; Supervisor.mkLoop 1 0 1] /\
  Supervisor.cancel c2 !! 1 = Some 1%nat /\
  Supervisor.running_for 1 (Supervisor.Remove 1 c2) = [Supervisor.mkLoop 1 0 0] /\
  Supervisor.cancel (Supervisor.Remove 1 c2) !! 1 = None.
Proof. vm_compute. repeat split. Qed.

(** [Restart], for comparison, cancels the loop it replaces. *)
Lemma restart_replaces_loop :
  let c1 := Supervisor.Add 0%nat (monitor_1 "unknown" 0) Supervisor.NewChecker in
  Supervisor.running_for 1 (Supervisor.Restart 0%nat (monitor_1 "unknown" 0) c1) =
    [Supervisor.mkLoop 1 0 1].
Proof. vm_compute. reflexivity. Qed.

(** * Further properties of the checker *)

(** ** Runs of the decision *)

Lemma run_decisions_app l1 l2 s f :
  run_decisions (l1 ++ l2) s f =
  run_decisions l2 (fst (run_decisions l1 s f)) (snd (run_decisions l1 s f)).
Proof.
  unfold run_decisions. rewrite fold_left_app.
  now destruct (fold_left _ l1 (s, f)).
Qed.

Lemma run_decisions_cons b l s f :
  run_decisions (b :: l) s f =
  run_decisions l (fst (next_state s f b)) (snd (next_state s f b)).
Proof. unfold run_decisions. cbn. now destruct (next_state s f b). Qed.

Lemma run_failures (n : nat) (s : string) (f : Z) :
  0 <= f -> f + Z.of_nat n <= GoInt.max_int ->
  run_decisions (repeat false n) s f =
  (if (0 <? Z.of_nat n) && (3 <=? f + Z.of_nat n) then "down" else s, f + Z.of_nat n).
Proof.
  revert s f. induction n as [| n IH]; intros s f Hf Hmax.
  - cbn. now rewrite Z.add_0_r.
  - cbn [repeat]. rewrite run_decisions_cons, next_state_fail.
    assert (Hadd : GoInt.add f 1 = f + 1).
    { apply add_no_overflow. unfold GoInt.in_range, GoInt.min_int, GoInt.max_int in *. lia. }
    rewrite Hadd. cbn [fst snd]. rewrite IH by lia.
    replace (f + 1 + Z.of_nat n) with (f + Z.of_nat (S n)) by lia.
    f_equal. unfold failureThreshold, state_down.
    destruct (Z.leb_spec 3 (f + 1)), (Z.leb_spec 3 (f + Z.of_nat (S n))),
      (Z.ltb_spec 0 (Z.of_nat n)), (Z.ltb_spec 0 (Z.of_nat (S n)));
      cbn; try reflexivity; lia.
Qed.

(** X1. [n] failing probes in a row, from a stored state [s] and count [f],
    leave the count at [f + n]; the state is "down" once the count has
    reached 3 and [s] before. *)
Theorem failures_accumulate (n : nat) (s : string) (f : Z) :
  0 <= f -> f + Z.of_nat n <= GoInt.max_int ->
  snd (run_decisions (repeat false n) s f) = f + Z.of_nat n /\
  (0 < Z.of_nat n -> 3 <= f + Z.of_nat n ->
   fst (run_decisions (repeat false n) s f) = "down") /\
  (f + Z.of_nat n < 3 -> fst (run_decisions (repeat false n) s f) = s).
Proof.
  intros Hf Hmax. rewrite run_failures by assumption. cbn [fst snd].
  split; [reflexivity |]. split.
  - intros Hn H3.
    destruct (Z.ltb_spec 0 (Z.of_nat n)), (Z.leb_spec 3 (f + Z.of_nat n));
      cbn; try reflexivity; lia.
  - intros Hlt.
    destruct (Z.ltb_spec 0 (Z.of_nat n)), (Z.leb_spec 3 (f + Z.of_nat n));
      cbn; try reflexivity; lia.
Qed.

Lemma failures_accumulate_witness :
  0 <= 1 /\ 1 + Z.of_nat 2 <= GoInt.max_int /\
  snd (run_decisions (repeat false 2) "up" 1) = 1 + Z.of_nat 2.
Proof.
  assert (H0 : 0 <= 1) by lia.
  assert (H1 : 1 + Z.of_nat 2 <= GoInt.max_int) by (unfold GoInt.max_int; cbn; lia).
  split; [exact H0 |]. split; [exact H1 |].
  exact (proj1 (failures_accumulate 2 "up" 1 H0 H1)).
Defined.

(** X2. Whatever came before, a run that ends with a successful probe
    followed by [k] failing ones leaves the count at [k] and the state at
    "down" when [k >= 3], at "up" otherwise: only three failures in a row
    take a monitor down. *)
Theorem trailing_failures_decide (before : list bool) (k : nat) (s : string) (f : Z) :
  Z.of_nat k <= GoInt.max_int ->
  run_decisions (before ++ true :: repeat false k) s f =
  (if 3 <=? Z.of_nat k then "down" else "up", Z.of_nat k).
Proof.
  intros Hk. rewrite run_decisions_app, run_decisions_cons, next_state_up.
  cbn [fst snd]. unfold state_up. rewrite run_failures by lia.
  rewrite Z.add_0_l. f_equal.
  destruct (Z.ltb_spec 0 (Z.of_nat k)), (Z.leb_spec 3 (Z.of_nat k));
    cbn; try reflexivity; lia.
Qed.

Lemma trailing_failures_decide_witness :
  Z.of_nat 2 <= GoInt.max_int /\
  run_decisions ([false; false; false; false] ++ true :: repeat false 2) "down" 7 = ("up", 2).
Proof.
  assert (H : Z.of_nat 2 <= GoInt.max_int) by (unfold GoInt.max_int; cbn; lia).
  split; [exact H |].
  exact (trailing_failures_decide [false; false; false; false] 2 "down" 7 H).
Defined.

(** X3. A run never puts a monitor back to "unknown": the state after a run
    is "unknown" only if it was "unknown" before and no probe of the run was
    up. *)
Theorem unknown_never_reentered (outcomes : list bool) (s : string) (f : Z) :
  fst (run_decisions outcomes s f) = "unknown" ->
  s = "unknown" /\ forallb negb outcomes = true.
Proof.
  revert s f. induction outcomes as [| b l IH]; intros s f H.
  - cbn in H. now split.
  - rewrite run_decisions_cons in H. apply IH in H. destruct H as [Hs Hl].
    destruct b.
    + rewrite next_state_up in Hs. discriminate.
    + rewrite next_state_fail in Hs. cbn [fst] in Hs.
      destruct (failureThreshold <=? GoInt.add f 1); [discriminate |].
      split; [exact Hs | exact Hl].
Qed.

Lemma unknown_never_reentered_witness :
  fst (run_decisions [false; false] "unknown" 0) = "unknown" /\
  forallb negb [false; false] = true.
Proof.
  assert (H : fst (run_decisions [false; false] "unknown" 0) = "unknown") by reflexivity.
  split; [exact H |].
  exact (proj2 (unknown_never_reentered [false; false] "unknown" 0 H)).
Defined.

(** X4. A monitor that is "down" stays "down" as long as its probes fail,
    whatever its count, the largest int included. *)
Theorem down_until_success (outcomes : list bool) (f : Z) :
  forallb negb outcomes = true ->
  fst (run_decisions outcomes "down" f) = "down".
Proof.
  revert f. induction outcomes as [| b l IH]; intros f H.
  - reflexivity.
  - cbn [forallb] in H. apply andb_true_iff in H. destruct H as [Hb Hl].
    destruct b; [discriminate |].
    rewrite run_decisions_cons, next_state_fail. cbn [fst snd].
    destruct (failureThreshold <=? GoInt.add f 1); now apply IH.
Qed.

Lemma down_until_success_witness :
  forallb negb [false; false] = true /\
  fst (run_decisions [false; false] "down" GoInt.max_int) = "down".
Proof.
  split; [reflexivity |].
  exact (down_until_success [false; false] GoInt.max_int eq_refl).
Defined.

(** ** What a tick does to the database *)

Section TickDatabase.

Variable urlParses : string -> bool.

(** The database after a tick: untouched, or with the check of the tick
    appended, and then possibly with the decision written to the row. *)
Lemma probe_db env id url d :
  let check := make_check id (elapsed_ms env)
                 (fst (client_Do urlParses (server env) url)) in
  db_after (probe urlParses env id url d) = d \/
  db_after (probe urlParses env id url d) =
    {| monitors := monitors d;
       checks := prune_old_checks (expired env) (checks d) ++ [check] |} \/
  exists m, monitors d !! id = Some m /\
    db_after (probe urlParses env id url d) =
      {| monitors :=
           alter (set_state
                    (fst (next_state (State m) (ConsecutiveFailures m) (IsUp check)))
                    (snd (next_state (State m) (ConsecutiveFailures m) (IsUp check))))
                 id (monitors d);
         checks := prune_old_checks (expired env) (checks d) ++ [check] |}.
Proof.
  intros check.
  destruct (urlParses url) eqn:Hu.
  2:{ left. now rewrite probe_bad_url. }
  destruct (record_fault env) eqn:Hr.
  { left. rewrite probe_record_fails by assumption.
    now destruct (client_Do urlParses (server env) url). }
  rewrite probe_recorded by assumption. subst check.
  destruct (client_Do urlParses (server env) url) as [r sent]. cbn [fst].
  set (check := make_check id (elapsed_ms env) r).
  set (d1 := {| monitors := monitors d;
                checks := prune_old_checks (expired env) (checks d) ++ [check] |}).
  destruct (get_fault env) eqn:Hg.
  { right. left. now rewrite updateState_no_row by auto. }
  destruct (monitors d !! id) as [m |] eqn:Hm.
  2:{ right. left. now rewrite updateState_no_row by auto. }
  rewrite (updateState_row env id (IsUp check) d1 m) by assumption.
  destruct (next_state (State m) (ConsecutiveFailures m) (IsUp check)) as [st fl] eqn:Hn.
  destruct (update_fault env).
  - right. left. reflexivity.
  - right. right. exists m. split; [reflexivity |]. now rewrite Hn.
Qed.

(** X5. A run of the worker of monitor [id] leaves every other row as it
    was, adds and removes no row, and in its own row changes nothing but the
    state and the failure count: id, name, URL, interval and timeout stay. *)
Theorem worker_frame ticks id url d j :
  settings <$> monitors (db_after (worker urlParses ticks id url d)) !! j =
    settings <$> monitors d !! j /\
  (j <> id ->
   monitors (db_after (worker urlParses ticks id url d)) !! j = monitors d !! j).
Proof.
  revert d. induction ticks as [| env ticks IH]; intros d.
  - split; reflexivity.
  - rewrite worker_cons.
    set (d1 := db_after (probe urlParses env id url d)).
    assert (Hd1 : settings <$> monitors d1 !! j = settings <$> monitors d !! j /\
                  (j <> id -> monitors d1 !! j = monitors d !! j)).
    { subst d1. destruct (probe_db env id url d) as [-> | [-> | (m & Hm & ->)]];
        cbn [monitors]; try (split; reflexivity).
      split.
      - destruct (decide (j = id)) as [-> | Hne].
        + rewrite lookup_alter_eq, Hm. reflexivity.
        + now rewrite lookup_alter_ne.
      - intros Hne. now rewrite lookup_alter_ne. }
    destruct (IH d1) as [IH1 IH2].
    destruct (worker urlParses ticks id url d1) as [[u d2] t2] eqn:Hw.
    unfold db_after in *. cbn [fst snd] in *.
    destruct Hd1 as [H1 H2]. split.
    + now rewrite IH1.
    + intros Hne. rewrite IH2 by assumption. now apply H2.
Qed.


Lemma prune_from_none expired l :
  (forall i, expired i = false) -> forall i, prune_from expired i l = l.
Proof.
  intros He. induction l as [| c l IH]; intros i; cbn; [reflexivity |].
  now rewrite He, IH.
Qed.


End TickDatabase.

Section TickRuns.

Variable urlParses : string -> bool.

Lemma make_check_IsUp id ms id' ms' r :
  IsUp (make_check id ms r) = IsUp (make_check id' ms' r).
Proof. now destruct r. Qed.

Lemma set_state_same m : set_state (State m) (ConsecutiveFailures m) m = m.
Proof. now destruct m. Qed.

(** A tick on which nothing fails. *)
Lemma probe_storage_ok env id url d m :
  urlParses url = true -> storage_ok env = true -> monitors d !! id = Some m ->
  db_after (probe urlParses env id url d) =
  {| monitors :=
       alter (set_state
                (fst (next_state (State m) (ConsecutiveFailures m)
                        (tick_is_up urlParses url env)))
                (snd (next_state (State m) (ConsecutiveFailures m)
                        (tick_is_up urlParses url env))))
             id (monitors d);
     checks := prune_old_checks (expired env) (checks d) ++
               [make_check id (elapsed_ms env)
                  (fst (client_Do urlParses (server env) url))] |}.
Proof.
  unfold storage_ok. rewrite !andb_true_iff, !negb_true_iff.
  intros Hu [[Hr Hg] Hup] Hm.
  rewrite probe_recorded by assumption. unfold tick_is_up.
  destruct (client_Do urlParses (server env) url) as [r sent]. cbn [fst].
  rewrite (make_check_IsUp 0 (elapsed_ms env) id (elapsed_ms env) r).
  set (check := make_check id (elapsed_ms env) r).
  rewrite (updateState_row env id (IsUp check) _ m) by assumption.
  destruct (next_state (State m) (ConsecutiveFailures m) (IsUp check)) as [st fl].
  rewrite Hup. reflexivity.
Qed.

(** X7. When the URL parses and no SQL statement fails, a run of the worker
    leaves in the row of its monitor the decision applied along the outcomes
    of its probes; and when no stored check expires during the run, the
    checks table is the old one followed by the check of each tick, in
    order. *)
Theorem worker_run_state ticks id url d m :
  urlParses url = true ->
  forallb storage_ok ticks = true ->
  monitors d !! id = Some m ->
  monitors (db_after (worker urlParses ticks id url d)) !! id =
    Some (set_state
            (fst (run_decisions (map (tick_is_up urlParses url) ticks)
                    (State m) (ConsecutiveFailures m)))
            (snd (run_decisions (map (tick_is_up urlParses url) ticks)
                    (State m) (ConsecutiveFailures m)))
            m) /\
  (List.Forall (fun env => forall i, expired env i = false) ticks ->
   checks (db_after (worker urlParses ticks id url d)) =
     checks d ++
     map (fun env => make_check id (elapsed_ms env)
                       (fst (client_Do urlParses (server env) url))) ticks).
Proof.
  intros Hu. revert d m. induction ticks as [| env ticks IH]; intros d m Hok Hm.
  - cbn. rewrite set_state_same, app_nil_r. split; [assumption | reflexivity].
  - cbn [forallb] in Hok. apply andb_true_iff in Hok. destruct Hok as [Henv Hok].
    rewrite worker_cons. pose proof (probe_storage_ok env id url d m Hu Henv Hm) as Hp.
    set (b := tick_is_up urlParses url env) in *.
    set (d1 := db_after (probe urlParses env id url d)) in *.
    set (m1 := set_state (fst (next_state (State m) (ConsecutiveFailures m) b))
                 (snd (next_state (State m) (ConsecutiveFailures m) b)) m).
    assert (Hm1 : monitors d1 !! id = Some m1).
    { rewrite Hp. cbn [monitors]. rewrite lookup_alter_eq, Hm. reflexivity. }
    destruct (IH d1 m1 Hok Hm1) as [IH1 IH2].
    destruct (worker urlParses ticks id url d1) as [[u d2] t2] eqn:Hw.
    unfold db_after in IH1, IH2 |- *. cbn [fst snd] in IH1, IH2 |- *.
    cbn [map]. rewrite run_decisions_cons. fold b. split.
    + rewrite IH1. reflexivity.
    + intros Hexp. apply List.Forall_cons_iff in Hexp. destruct Hexp as [He Hexp].
      rewrite (IH2 Hexp), Hp. cbn [checks]. unfold prune_old_checks.
      rewrite (prune_from_none _ _ He), <- app_assoc. reflexivity.
Qed.

(** X8. When the check is recorded but the state cannot be read (the read
    fails or the monitor has no row) or cannot be written, the tick keeps the
    check, as the newest row after what the expiry trigger kept, and leaves the
    monitors as they were; it writes no state at all when the read gave no
    row. *)
Theorem state_path_failure_keeps_check env id url d :
  urlParses url = true ->
  record_fault env = false ->
  get_fault env = true \/ monitors d !! id = None \/ update_fault env = true ->
  db_after (probe urlParses env id url d) =
    {| monitors := monitors d;
       checks := prune_old_checks (expired env) (checks d) ++
                 [make_check id (elapsed_ms env)
                    (fst (client_Do urlParses (server env) url))] |} /\
  (get_fault env = true \/ monitors d !! id = None ->
   List.filter is_update (calls (probe urlParses env id url d)) = []).
Proof.
  intros Hu Hr Hfail. rewrite probe_recorded by assumption.
  destruct (client_Do urlParses (server env) url) as [r sent]. cbn [fst].
  set (check := make_check id (elapsed_ms env) r).
  set (d1 := {| monitors := monitors d;
                checks := prune_old_checks (expired env) (checks d) ++ [check] |}).
  destruct (get_fault env) eqn:Hg.
  { rewrite updateState_no_row by auto. split; reflexivity. }
  destruct (monitors d !! id) as [m |] eqn:Hm.
  2:{ rewrite updateState_no_row by auto. split; reflexivity. }
  destruct Hfail as [Hf | [Hf | Hf]]; try discriminate.
  rewrite (updateState_row env id (IsUp check) d1 m) by assumption.
  destruct (next_state (State m) (ConsecutiveFailures m) (IsUp check)) as [st fl].
  rewrite Hf. split; [reflexivity |]. intros [H | H]; discriminate.
Qed.

End TickRuns.

Lemma worker_run_state_witness :
  parse_ctl good_url = true /\
  forallb storage_ok [env_refused 5 false; env_refused 6 false; env_refused 7 false] = true /\
  monitors (db_1 "up" 0) !! 1 = Some (monitor_1 "up" 0) /\
  monitors (db_after (worker parse_ctl
              [env_refused 5 false; env_refused 6 false; env_refused 7 false]
              1 good_url (db_1 "up" 0))) !! 1 = Some (monitor_1 "down" 3).
Proof.
  split; [reflexivity |]. split; [reflexivity |]. split; [reflexivity |].
  exact (proj1 (worker_run_state parse_ctl
                  [env_refused 5 false; env_refused 6 false; env_refused 7 false]
                  1 good_url (db_1 "up" 0) (monitor_1 "up" 0) eq_refl eq_refl eq_refl)).
Defined.

Lemma state_path_failure_keeps_check_witness :
  parse_ctl good_url = true /\
  record_fault (env_refused 9 false) = false /\
  monitors (db_1 "up" 2) !! 2 = None /\
  db_after (probe parse_ctl (env_refused 9 false) 2 good_url (db_1 "up" 2)) =
    {| monitors := monitors (db_1 "up" 2);
       checks := [mkCheck 2 None (Some 9) false] |}.
Proof.
  split; [reflexivity |]. split; [reflexivity |]. split; [reflexivity |].
  exact (proj1 (state_path_failure_keeps_check parse_ctl (env_refused 9 false) 2 good_url
                  (db_1 "up" 2) eq_refl eq_refl (or_intror (or_introl eq_refl)))).
Defined.

(** ** More on the exchange *)

Lemma shouldRedirect_range code :
  shouldRedirect code = true -> (200 <=? code) && (code <? 400) = true.
Proof.
  unfold shouldRedirect. rewrite !orb_true_iff, !Z.eqb_eq, andb_true_iff, Z.leb_le, Z.ltb_lt.
  lia.
Qed.

(** X9. A URL behind which every answer is a redirect that can be followed (a
    redirect loop, say) is probed with exactly ten requests, and the check
    recorded is up and carries the status code of the answer to the tenth
    request, a redirect status. *)
Theorem endless_redirects_are_up urlParses server url id ms :
  (forall u, exists resp, server u = Some resp /\ followable urlParses resp = true) ->
  let r := fst (client_Do urlParses server url) in
  let sent := snd (client_Do urlParses server url) in
  length sent = 10%nat /\
  exists resp,
    server (List.last sent "") = Some resp /\
    r = DoResp resp /\
    make_check id ms r =
      {| MonitorID := id; StatusCode := Some (RespStatusCode resp);
         ResponseTimeMs := Some ms; IsUp := true |} /\
    shouldRedirect (RespStatusCode resp) = true.
Proof.
  intros Hsrv r sent.
  destruct (client_Do_spec urlParses server url r sent) as (_ & _ & _ & _ & Hcap & _).
  { subst r sent. now destruct (client_Do urlParses server url). }
  destruct (Hsrv (List.last sent "")) as (resp & Hresp & Hfol).
  destruct (Hcap resp Hresp Hfol) as [Hlen Hr].
  split; [exact Hlen |]. exists resp. split; [exact Hresp |]. split; [exact Hr |].
  apply followable_inv in Hfol. destruct Hfol as [Hred _].
  rewrite Hr. cbn [make_check]. rewrite (shouldRedirect_range _ Hred).
  split; [reflexivity | exact Hred].
Qed.

Lemma endless_redirects_are_up_witness :
  (forall u, exists resp,
     (fun _ : string => Some (mkResponse 302 (Some "/"))) u = Some resp /\
     followable parse_ctl resp = true) /\
  length (snd (client_Do parse_ctl (fun _ => Some (mkResponse 302 (Some "/"))) "/")) =
    10%nat.
Proof.
  assert (H : forall u : string, exists resp,
     (fun _ : string => Some (mkResponse 302 (Some "/"))) u = Some resp /\
     followable parse_ctl resp = true).
  { intros u. exists (mkResponse 302 (Some "/")). split; reflexivity. }
  split; [exact H |].
  exact (proj1 (endless_redirects_are_up parse_ctl _ "/" 1 12 H)).
Defined.

(** X10. The status code of a recorded check is absent exactly when the
    exchange failed; a response is recorded with its status code whether it
    counts as up or not, an HTTP 500 included. *)
Theorem status_code_recorded urlParses env id url d c :
  In (EvRecordCheck c) (calls (probe urlParses env id url d)) ->
  (StatusCode c = None <-> fst (client_Do urlParses (server env) url) = DoErr) /\
  (forall resp, fst (client_Do urlParses (server env) url) = DoResp resp ->
     StatusCode c = Some (RespStatusCode resp) /\
     (IsUp c = false <-> RespStatusCode resp < 200 \/ 400 <= RespStatusCode resp)).
Proof.
  intros Hin. apply probe_calls in Hin.
  assert (Hc : c = make_check id (elapsed_ms env)
                     (fst (client_Do urlParses (server env) url))).
  { repeat (destruct Hin as [Hin | Hin]; try discriminate).
    - now injection Hin.
    - destruct Hin as (s & f & isUp & Hin). discriminate. }
  assert (Hfuel : fst (client_Do urlParses (server env) url) <> DoOutOfFuel).
  { destruct (client_Do urlParses (server env) url) as [r0 sent] eqn:Hdo.
    apply client_Do_spec in Hdo. apply Hdo. }
  subst c. destruct (fst (client_Do urlParses (server env) url)) as [resp | |];
    [| | contradiction]; cbn.
  - split; [split; discriminate |]. intros resp' [= <-]. split; [reflexivity |].
    rewrite andb_false_iff, Z.leb_gt, Z.ltb_ge. tauto.
  - split; [tauto |]. intros resp H. discriminate.
Qed.

Lemma status_code_recorded_witness :
  In (EvRecordCheck (mkCheck 1 (Some 500) (Some 8) false))
     (calls (probe parse_ctl
               (mkTickEnv (fun _ => Some (mkResponse 500 None)) 8 false false false
                  (fun _ => false))
               1 good_url (db_1 "up" 0))) /\
  (StatusCode (mkCheck 1 (Some 500) (Some 8) false) = None <->
   fst (client_Do parse_ctl (fun _ => Some (mkResponse 500 None)) good_url) = DoErr).
Proof.
  assert (H : In (EvRecordCheck (mkCheck 1 (Some 500) (Some 8) false))
     (calls (probe parse_ctl
               (mkTickEnv (fun _ => Some (mkResponse 500 None)) 8 false false false
                  (fun _ => false))
               1 good_url (db_1 "up" 0)))).
  { vm_compute. right. left. reflexivity. }
  split; [exact H |].
  exact (proj1 (status_code_recorded _ _ _ _ _ _ H)).
Defined.

(** ** The registry under its exported operations *)

Section RegistryFacts.

Import Supervisor SupervisorOps.

Lemma filter_nil {A} (p : A -> bool) l :
  (forall x, In x l -> p x = false) -> List.filter p l = [].
Proof.
  induction l as [| a l IH]; intros H; [reflexivity |].
  cbn. rewrite (H a) by now left. apply IH. intros x Hx. apply H. now right.
Qed.

Lemma filter_at_most_one {A} (f : A -> nat) (p : A -> bool) l :
  NoDup (map f l) ->
  (forall x y, In x l -> In y l -> p x = true -> p y = true -> f x = f y) ->
  (length (List.filter p l) <= 1)%nat.
Proof.
  induction l as [| a l IH]; intros Hnd Heq; [cbn; lia |].
  cbn [map] in Hnd. apply NoDup_cons in Hnd. destruct Hnd as [Hnotin Hnd].
  cbn [List.filter]. destruct (p a) eqn:Hpa.
  - rewrite filter_nil; [cbn; lia |].
    intros x Hx. destruct (p x) eqn:Hpx; [| reflexivity].
    exfalso. apply Hnotin. rewrite (Heq a x); auto using in_eq, in_cons.
    apply list_elem_of_In. now apply in_map.
  - apply IH; [assumption |]. intros x y Hx Hy. apply Heq; now right.
Qed.

Lemma running_for_In id c l :
  In l (running_for id c) <->
  (In l (loops c) /\ (loop_id l = id) /\
   (loop_ctx l ∉ cancelled_ctx c) /\ (loop_parent l ∉ cancelled_parent c)).
Proof.
  unfold running_for, running, ctx_done. rewrite !filter_In, Z.eqb_eq, negb_true_iff,
    orb_false_iff, !bool_decide_eq_false. tauto.
Qed.

Lemma stopWorker_unregistered id c :
  cancel c !! id = None -> stopWorker id c = c.
Proof. unfold stopWorker. now intros ->. Qed.

Lemma stopWorker_lookup id c : cancel (stopWorker id c) !! id = None.
Proof.
  unfold stopWorker. destruct (cancel c !! id) eqn:E; [| assumption].
  cbn. apply lookup_delete_eq.
Qed.

(** X11. [Remove] of an id that has no entry changes nothing, and a second
    [Remove] of the same id changes nothing more. *)
Theorem Remove_missing_and_twice id c :
  (cancel c !! id = None -> Remove id c = c) /\
  Remove id (Remove id c) = Remove id c.
Proof.
  unfold Remove. split; [apply stopWorker_unregistered |].
  apply stopWorker_unregistered, stopWorker_lookup.
Qed.

Lemma Remove_missing_and_twice_witness :
  cancel NewChecker !! 7 = None /\ Remove 7 NewChecker = NewChecker.
Proof.
  split; [reflexivity |].
  exact (proj1 (Remove_missing_and_twice 7 NewChecker) eq_refl).
Defined.

Lemma consistent_NewChecker : consistent NewChecker.
Proof.
  unfold consistent, NewChecker. cbn. repeat split.
  - contradiction.
  - constructor.
  - contradiction.
  - intros id tok H. now rewrite lookup_empty in H.
  - intros tok H. now apply not_elem_of_empty in H.
Qed.

Lemma consistent_stopWorker id c : consistent c -> consistent (stopWorker id c).
Proof.
  intros (H1 & H2 & H3 & H4 & H5). unfold stopWorker.
  destruct (cancel c !! id) as [tok |] eqn:E; [| repeat split; assumption].
  unfold consistent. cbn. repeat split; try assumption.
  - intros l Hl Hnot. apply not_elem_of_union in Hnot. destruct Hnot as [Hne Hnot].
    apply not_elem_of_singleton in Hne.
    specialize (H3 l Hl Hnot). destruct (decide (loop_id l = id)) as [Heq | Hneq].
    + rewrite Heq, E in H3. congruence.
    + now rewrite lookup_delete_ne.
  - intros id' tok' H. destruct (decide (id' = id)) as [-> | Hneq].
    + now rewrite lookup_delete_eq in H.
    + rewrite lookup_delete_ne in H by congruence. eauto.
  - intros tok' H. apply elem_of_union in H. destruct H as [H | H]; [| eauto].
    apply elem_of_singleton in H. subst. eauto.
Qed.

Lemma consistent_startWorker ctx m c :
  consistent c -> cancel c !! ID m = None -> consistent (startWorker ctx m c).
Proof.
  intros (H1 & H2 & H3 & H4 & H5) Hfresh. unfold consistent, startWorker. cbn.
  repeat split.
  - intros l Hl. apply in_app_or in Hl. destruct Hl as [Hl | [<- | []]]; cbn.
    + specialize (H1 l Hl). lia.
    + lia.
  - rewrite map_app. cbn. apply NoDup_app. split; [assumption |]. split.
    + intros tok Htok Hin. apply list_elem_of_In, in_map_iff in Htok.
      destruct Htok as (l & <- & Hl). apply list_elem_of_singleton in Hin.
      specialize (H1 l Hl). lia.
    + apply NoDup_singleton.
  - intros l Hl Hnot. apply in_app_or in Hl. destruct Hl as [Hl | [<- | []]]; cbn.
    + specialize (H3 l Hl Hnot).
      rewrite lookup_insert_ne; [assumption |]. intros Heq. rewrite Heq in Hfresh.
      congruence.
    + apply lookup_insert_eq.
  - intros id tok H. destruct (decide (id = ID m)) as [-> | Hneq].
    + rewrite lookup_insert_eq in H. injection H as <-. lia.
    + rewrite lookup_insert_ne in H by congruence. apply H4 in H. lia.
  - intros tok H. apply H5 in H. lia.
Qed.

Lemma consistent_apply_op c op :
  consistent c ->
  match op with OpAdd _ m => cancel c !! ID m = None | _ => True end ->
  consistent (apply_op c op).
Proof.
  intros Hc Hop. destruct op as [ctx m | ctx m | id]; cbn.
  - now apply consistent_startWorker.
  - apply consistent_startWorker; [now apply consistent_stopWorker |].
    apply stopWorker_lookup.
  - now apply consistent_stopWorker.
Qed.

Lemma consistent_ops ops : forall c,
  consistent c -> adds_fresh c ops = true -> consistent (foldl apply_op c ops).
Proof.
  induction ops as [| op ops IH]; intros c Hc Hops; [assumption |].
  cbn in Hops |- *. apply andb_true_iff in Hops. destruct Hops as [Hop Hops].
  apply IH; [| assumption]. apply consistent_apply_op; [assumption |].
  destruct op; try exact I. now apply bool_decide_eq_true in Hop.
Qed.

Lemma consistent_at_most_one c id :
  consistent c -> (length (running_for id c) <= 1)%nat.
Proof.
  intros (H1 & H2 & H3 & H4 & H5).
  unfold running_for, running.
  assert (Hfilter : forall l : list Loop,
            List.filter (fun l0 => loop_id l0 =? id)
              (List.filter (fun l0 => negb (ctx_done c l0)) l) =
            List.filter (fun l0 => negb (ctx_done c l0) && (loop_id l0 =? id)) l).
  { induction l as [| a l IH]; [reflexivity |]. cbn.
    destruct (negb (ctx_done c a)); cbn; [| assumption].
    destruct (loop_id a =? id); now rewrite IH. }
  rewrite Hfilter. apply (filter_at_most_one loop_ctx); [assumption |].
  intros x y Hx Hy Hpx Hpy.
  apply andb_true_iff in Hpx, Hpy. destruct Hpx as [Hax Hix], Hpy as [Hay Hiy].
  apply Z.eqb_eq in Hix, Hiy. unfold ctx_done in Hax, Hay.
  rewrite negb_true_iff, orb_false_iff, !bool_decide_eq_false in Hax, Hay.
  pose proof (H3 x Hx (proj1 Hax)) as Ex. pose proof (H3 y Hy (proj1 Hay)) as Ey.
  rewrite Hix in Ex. rewrite Hiy in Ey. congruence.
Qed.

(** X12. As long as [Add] is called only for ids that have no entry in the
    registry, any sequence of [Add], [Restart] and [Remove] on a new checker
    leaves at most one running loop per monitor id. *)
Theorem one_loop_per_id ops id :
  adds_fresh NewChecker ops = true ->
  (length (running_for id (foldl apply_op NewChecker ops)) <= 1)%nat.
Proof.
  intros Hops. apply consistent_at_most_one, consistent_ops;
    [apply consistent_NewChecker | assumption].
Qed.

Lemma one_loop_per_id_witness :
  adds_fresh NewChecker
    [OpAdd 0%nat (monitor_1 "unknown" 0); OpRestart 1%nat (monitor_1 "unknown" 0);
     OpRemove 1; OpAdd 2%nat (monitor_1 "unknown" 0)] = true /\
  (length (running_for 1 (foldl apply_op NewChecker
    [OpAdd 0%nat (monitor_1 "unknown" 0); OpRestart 1%nat (monitor_1 "unknown" 0);
     OpRemove 1; OpAdd 2%nat (monitor_1 "unknown" 0)])) <= 1)%nat.
Proof.
  split; [reflexivity |].
  exact (one_loop_per_id
           [OpAdd 0%nat (monitor_1 "unknown" 0); OpRestart 1%nat (monitor_1 "unknown" 0);
            OpRemove 1; OpAdd 2%nat (monitor_1 "unknown" 0)] 1 eq_refl).
Defined.

End RegistryFacts.

Section RegistryLifecycle.

Import Supervisor SupervisorOps.

Lemma no_element_nil {A} (l : list A) : (forall x, ~ In x l) -> l = [].
Proof. destruct l as [| a l]; [reflexivity |]. intros H. now destruct (H a (in_eq a l)). Qed.

Lemma stopWorker_keeps id c :
  loops (stopWorker id c) = loops c /\
  next_ctx (stopWorker id c) = next_ctx c /\
  cancelled_parent (stopWorker id c) = cancelled_parent c /\
  cancelled_ctx c ⊆ cancelled_ctx (stopWorker id c).
Proof.
  unfold stopWorker. destruct (cancel c !! id); cbn; repeat split; set_solver.
Qed.

Lemma running_for_stopWorker id c :
  consistent c -> running_for id (stopWorker id c) = [].
Proof.
  intros Hc. apply no_element_nil. intros l Hl.
  apply running_for_In in Hl. destruct Hl as (Hin & Hid & Hown & _).
  destruct (consistent_stopWorker id c Hc) as (_ & _ & H3 & _).
  specialize (H3 l Hin Hown). rewrite Hid, stopWorker_lookup in H3. discriminate.
Qed.

(** X13. On a consistent registry, [Remove] leaves no running loop for the
    id, and [Restart], when the context it is given is live, leaves exactly
    one: a new loop under a new context, not the one that ran before. *)
Theorem Restart_one_fresh_loop ctx m c :
  consistent c ->
  ctx ∉ cancelled_parent c ->
  running_for (ID m) (Remove (ID m) c) = [] /\
  running_for (ID m) (Restart ctx m c) =
    [{| loop_id := ID m; loop_parent := ctx; loop_ctx := next_ctx c |}] /\
  ~ In (next_ctx c) (map loop_ctx (loops c)).
Proof.
  intros Hc Hctx. split; [now apply running_for_stopWorker |].
  pose proof (running_for_stopWorker (ID m) c Hc) as Hnil.
  pose proof (consistent_stopWorker (ID m) c Hc) as (_ & _ & _ & _ & H5).
  destruct (stopWorker_keeps (ID m) c) as (Hl & Hn & Hp & _).
  split.
  - unfold Restart, startWorker.
    set (c1 := stopWorker (ID m) c) in *.
    unfold running_for, running in Hnil |- *. cbn [loops].
    rewrite !List.filter_app.
    change (List.filter (fun l => negb (ctx_done _ l)) (loops c1))
      with (List.filter (fun l => negb (ctx_done c1 l)) (loops c1)).
    rewrite Hnil. cbn [app List.filter]. unfold ctx_done. cbn.
    rewrite (bool_decide_eq_false_2 (next_ctx c1 ∈ cancelled_ctx c1)).
    2:{ intros Hin. apply H5 in Hin. lia. }
    rewrite (bool_decide_eq_false_2 (ctx ∈ cancelled_parent c1)).
    2:{ now rewrite Hp. }
    cbn. rewrite Z.eqb_refl, Hn. reflexivity.
  - destruct Hc as (H1 & _). intros Hin. apply in_map_iff in Hin.
    destruct Hin as (l & Heq & Hl'). specialize (H1 l Hl'). lia.
Qed.

Lemma Restart_one_fresh_loop_witness :
  consistent (Add 0%nat (monitor_1 "up" 0) NewChecker) /\
  (0%nat ∉ cancelled_parent (Add 0%nat (monitor_1 "up" 0) NewChecker)) /\
  running_for 1 (Restart 0%nat (monitor_1 "up" 0) (Add 0%nat (monitor_1 "up" 0) NewChecker)) =
    [mkLoop 1 0 1].
Proof.
  assert (Hc : consistent (Add 0%nat (monitor_1 "up" 0) NewChecker)).
  { apply consistent_startWorker; [apply consistent_NewChecker | reflexivity]. }
  assert (Hp : 0%nat ∉ cancelled_parent (Add 0%nat (monitor_1 "up" 0) NewChecker)).
  { cbn. apply not_elem_of_empty. }
  split; [exact Hc |]. split; [exact Hp |].
  exact (proj1 (proj2 (Restart_one_fresh_loop 0%nat (monitor_1 "up" 0) _ Hc Hp))).
Defined.

(** C8, amended. [Add] starts exactly one new loop. Called for an id that
    has no entry in the registry, on a consistent registry and with a live
    context, it leaves that loop as the only running loop of the id, changes
    the running loops of no other id, and keeps the registry consistent, so
    that every id has at most one running loop. *)
Theorem Add_unregistered_one_loop ctx m c :
  consistent c ->
  cancel c !! ID m = None ->
  ctx ∉ cancelled_parent c ->
  loops (Add ctx m c) =
    loops c ++ [{| loop_id := ID m; loop_parent := ctx; loop_ctx := next_ctx c |}] /\
  running_for (ID m) (Add ctx m c) =
    [{| loop_id := ID m; loop_parent := ctx; loop_ctx := next_ctx c |}] /\
  (forall id, id <> ID m -> running_for id (Add ctx m c) = running_for id c) /\
  consistent (Add ctx m c) /\
  (forall id, (length (running_for id (Add ctx m c)) <= 1)%nat).
Proof.
  intros Hc Hfresh Hctx.
  pose proof (consistent_startWorker ctx m c Hc Hfresh) as Hc'.
  split; [reflexivity |].
  destruct Hc as (_ & _ & H3 & _ & H5).
  assert (Hold : running_for (ID m) c = []).
  { apply no_element_nil. intros l Hl. apply running_for_In in Hl.
    destruct Hl as (Hin & Hid & Hown & _). specialize (H3 l Hin Hown).
    rewrite Hid, Hfresh in H3. discriminate. }
  assert (Hsplit : forall id,
            running_for id (Add ctx m c) =
            running_for id c ++
            List.filter (fun l => loop_id l =? id)
              (List.filter (fun l => negb (ctx_done c l))
                 [{| loop_id := ID m; loop_parent := ctx; loop_ctx := next_ctx c |}])).
  { intros id. unfold running_for, running, Add, startWorker. cbn [loops].
    now rewrite !List.filter_app. }
  assert (Hlive : ctx_done c {| loop_id := ID m; loop_parent := ctx;
                                loop_ctx := next_ctx c |} = false).
  { unfold ctx_done. cbn.
    rewrite (bool_decide_eq_false_2 (next_ctx c ∈ cancelled_ctx c)).
    2:{ intros Hin. apply H5 in Hin. lia. }
    now rewrite (bool_decide_eq_false_2 (ctx ∈ cancelled_parent c)). }
  split; [| split; [| split]].
  - rewrite Hsplit, Hold. cbn [app List.filter]. rewrite Hlive. cbn.
    now rewrite Z.eqb_refl.
  - intros id Hne. rewrite Hsplit. cbn [List.filter]. rewrite Hlive. cbn.
    destruct (Z.eqb_spec (ID m) id) as [Heq | _]; [congruence |].
    apply app_nil_r.
  - exact Hc'.
  - intros id. now apply consistent_at_most_one.
Qed.

Lemma Add_unregistered_one_loop_witness :
  consistent NewChecker /\
  cancel NewChecker !! ID (monitor_1 "unknown" 0) = None /\
  (0%nat ∉ cancelled_parent NewChecker) /\
  running_for 1 (Add 0%nat (monitor_1 "unknown" 0) NewChecker) = [mkLoop 1 0 0].
Proof.
  assert (Hp : 0%nat ∉ cancelled_parent NewChecker) by apply not_elem_of_empty.
  split; [apply consistent_NewChecker |]. split; [reflexivity |]. split; [exact Hp |].
  exact (proj1 (proj2 (Add_unregistered_one_loop 0%nat (monitor_1 "unknown" 0) NewChecker
                         consistent_NewChecker eq_refl Hp))).
Defined.

Lemma foldr_stopWorker ks c :
  loops (foldr stopWorker c ks) = loops c /\
  cancelled_ctx c ⊆ cancelled_ctx (foldr stopWorker c ks) /\
  (forall id, cancel (foldr stopWorker c ks) !! id =
              if bool_decide (id ∈ ks) then None else cancel c !! id) /\
  (forall id tok, id ∈ ks -> cancel c !! id = Some tok ->
                  tok ∈ cancelled_ctx (foldr stopWorker c ks)).
Proof.
  induction ks as [| k ks (IH1 & IH2 & IH3 & IH4)].
  - cbn. split; [reflexivity |]. split; [set_solver |]. split.
    + intros id. rewrite bool_decide_eq_false_2; [reflexivity | apply not_elem_of_nil].
    + intros id tok H. now apply elem_of_nil in H.
  - cbn [foldr]. set (c1 := foldr stopWorker c ks) in *.
    destruct (stopWorker_keeps k c1) as (Hl & _ & _ & Hsub).
    split; [congruence |]. split; [set_solver |]. split.
    + intros id. unfold stopWorker. destruct (decide (id = k)) as [-> | Hne].
      * rewrite (bool_decide_eq_true_2 (k ∈ k :: ks)) by apply list_elem_of_here.
        destruct (cancel c1 !! k) eqn:E; [cbn; apply lookup_delete_eq | assumption].
      * assert (Hiff : bool_decide (id ∈ k :: ks) = bool_decide (id ∈ ks)).
        { apply bool_decide_ext. rewrite elem_of_cons. tauto. }
        rewrite Hiff, <- IH3.
        destruct (cancel c1 !! k) eqn:E; [cbn; now apply lookup_delete_ne | reflexivity].
    + intros id tok Hin Hreg. apply elem_of_cons in Hin.
      destruct (decide (id ∈ ks)) as [Hks | Hks].
      { apply Hsub. eauto. }
      destruct Hin as [-> | Hin]; [| contradiction].
      unfold stopWorker. specialize (IH3 k).
      rewrite bool_decide_eq_false_2 in IH3 by assumption. rewrite IH3, Hreg. cbn.
      set_solver.
Qed.

(** X14. [Stop] empties the registry and cancels the context of every entry;
    on a consistent registry no loop is left running when it reaches
    [c.wg.Wait()]. *)
Theorem Stop_cancels_all c :
  cancel (Stop c) = ∅ /\
  (forall id tok, cancel c !! id = Some tok -> tok ∈ cancelled_ctx (Stop c)) /\
  (consistent c -> running (Stop c) = []).
Proof.
  unfold Stop. set (ks := (map_to_list (cancel c)).*1).
  destruct (foldr_stopWorker ks c) as (H1 & H2 & H3 & H4).
  assert (Hks : forall id tok, cancel c !! id = Some tok -> id ∈ ks).
  { intros id tok H. subst ks. apply list_elem_of_fmap. exists (id, tok).
    split; [reflexivity |]. now apply elem_of_map_to_list. }
  split; [| split].
  - apply map_eq. intros id. rewrite H3, lookup_empty.
    destruct (bool_decide (id ∈ ks)) eqn:E; [reflexivity |].
    apply bool_decide_eq_false in E. destruct (cancel c !! id) eqn:Hid; [| reflexivity].
    exfalso. eauto.
  - intros id tok H. eauto.
  - intros (_ & _ & C3 & _). unfold running. apply filter_nil. intros l Hl.
    rewrite H1 in Hl. apply negb_false_iff. unfold ctx_done.
    apply orb_true_iff. left. apply bool_decide_eq_true.
    destruct (decide (loop_ctx l ∈ cancelled_ctx c)) as [Hin | Hnot]; [set_solver |].
    specialize (C3 l Hl Hnot). eauto.
Qed.

Lemma Stop_cancels_all_witness :
  consistent (Add 0%nat (monitor_1 "up" 0) NewChecker) /\
  running (Stop (Add 0%nat (monitor_1 "up" 0) NewChecker)) = [].
Proof.
  assert (Hc : consistent (Add 0%nat (monitor_1 "up" 0) NewChecker)).
  { apply consistent_startWorker; [apply consistent_NewChecker | reflexivity]. }
  split; [exact Hc |].
  exact (proj2 (proj2 (Stop_cancels_all _)) Hc).
Defined.

End RegistryLifecycle.

(** ** Listing the monitors and starting their workers *)

Lemma insert_by_id_perm m l : Permutation (insert_by_id m l) (m :: l).
Proof.
  induction l as [| x l IH]; [reflexivity |]. cbn.
  destruct (ID m <=? ID x); [reflexivity |].
  rewrite IH. apply perm_swap.
Qed.

Lemma sort_by_id_perm l : Permutation (sort_by_id l) l.
Proof.
  induction l as [| x l IH]; [reflexivity |]. cbn.
  rewrite insert_by_id_perm. now constructor.
Qed.

Lemma insert_by_id_sorted m l :
  Sorted (fun a b => ID a <= ID b) l ->
  Sorted (fun a b => ID a <= ID b) (insert_by_id m l).
Proof.
  induction l as [| x l IH]; intros Hs; cbn.
  - repeat constructor.
  - destruct (Z.leb_spec (ID m) (ID x)).
    + constructor; [assumption |]. now constructor.
    + apply Sorted_inv in Hs. destruct Hs as [Hs Hhd].
      constructor; [now apply IH |].
      destruct l as [| y l]; cbn.
      * constructor. lia.
      * destruct (Z.leb_spec (ID m) (ID y)); constructor; [lia |].
        now apply HdRel_inv in Hhd.
Qed.

Lemma sort_by_id_sorted l : Sorted (fun a b => ID a <= ID b) (sort_by_id l).
Proof.
  induction l as [| x l IH]; cbn; [constructor | now apply insert_by_id_sorted].
Qed.

Lemma keyed_rows_ids d :
  keyed_db d ->
  map ID (snd <$> map_to_list (monitors d)) = (map_to_list (monitors d)).*1.
Proof.
  intros Hk.
  assert (H : forall l : list (Z * Monitor),
            (forall p, In p l -> ID (snd p) = fst p) -> map ID (snd <$> l) = l.*1).
  { induction l as [| p l IH]; intros Hl; [reflexivity |]. cbn.
    rewrite (Hl p) by now left. f_equal. apply IH. intros q Hq. apply Hl. now right. }
  apply H. intros [k m] Hp. cbn. apply (Hk k m).
  now apply elem_of_map_to_list, list_elem_of_In.
Qed.

Lemma sorted_rows d :
  keyed_db d ->
  NoDup (map ID (sort_by_id (snd <$> map_to_list (monitors d)))) /\
  (forall m, In m (sort_by_id (snd <$> map_to_list (monitors d))) <->
             monitors d !! ID m = Some m).
Proof.
  intros Hk.
  pose proof (sort_by_id_perm (snd <$> map_to_list (monitors d))) as Hperm.
  split.
  - rewrite (Permutation_map ID Hperm), keyed_rows_ids by assumption.
    apply NoDup_fst_map_to_list.
  - intros m. split.
    + intros Hin. apply (Permutation_in _ Hperm) in Hin.
      apply list_elem_of_In, list_elem_of_fmap in Hin.
      destruct Hin as ([k m'] & -> & Hp). cbn.
      apply elem_of_map_to_list in Hp. now rewrite (Hk k m' Hp).
    + intros Hm. apply (Permutation_in _ (Permutation_sym Hperm)).
      apply list_elem_of_In, list_elem_of_fmap. exists (ID m, m).
      split; [reflexivity |]. now apply elem_of_map_to_list.
Qed.

(** X15. [List] fails when the query fails; otherwise, on a table whose rows
    carry their key as id, it returns the rows of the table and no others,
    each once, in ascending order of id. *)
Theorem List_rows_in_order d :
  keyed_db d ->
  MonitorStore.List true d = Err /\
  exists ms,
    MonitorStore.List false d = Ok ms /\
    Sorted (fun a b => ID a <= ID b) ms /\
    NoDup (map ID ms) /\
    (forall m, In m ms <-> monitors d !! ID m = Some m).
Proof.
  intros Hk. split; [reflexivity |].
  exists (sort_by_id (snd <$> map_to_list (monitors d))).
  split; [reflexivity |]. split; [apply sort_by_id_sorted |].
  now apply sorted_rows.
Qed.

Lemma keyed_db_1 s f : keyed_db (db_1 s f).
Proof.
  intros k m H. unfold db_1 in H. cbn in H.
  apply lookup_singleton_Some in H. destruct H as [<- <-]. reflexivity.
Qed.

Lemma List_rows_in_order_witness :
  keyed_db (db_1 "up" 0) /\
  exists ms,
    MonitorStore.List false (db_1 "up" 0) = Ok ms /\
    Sorted (fun a b => ID a <= ID b) ms /\
    NoDup (map ID ms) /\
    (forall m, In m ms <-> monitors (db_1 "up" 0) !! ID m = Some m).
Proof.
  split; [apply keyed_db_1 |].
  exact (proj2 (List_rows_in_order (db_1 "up" 0) (keyed_db_1 "up" 0))).
Defined.

Section StartFacts.

Import Supervisor SupervisorOps.

Variable ctx : nat.

Lemma foldl_startWorker ms : forall c,
  let c' := foldl (fun c0 m => startWorker ctx m c0) c ms in
  map loop_id (loops c') = map loop_id (loops c) ++ map ID ms /\
  cancelled_ctx c' = cancelled_ctx c /\
  cancelled_parent c' = cancelled_parent c /\
  (forall k, is_Some (cancel c' !! k) <-> is_Some (cancel c !! k) \/ In k (map ID ms)).
Proof.
  induction ms as [| m ms IH]; intros c; cbn.
  - rewrite app_nil_r. repeat split; tauto.
  - destruct (IH (startWorker ctx m c)) as (H1 & H2 & H3 & H4).
    cbn in H1, H2, H3. rewrite H1, H2, H3, map_app, <- app_assoc. cbn.
    repeat split; try reflexivity.
    + intros H. apply H4 in H. destruct H as [H | H]; [| tauto].
      cbn in H. destruct (decide (k = ID m)) as [-> | Hne]; [tauto |].
      rewrite lookup_insert_ne in H by congruence. tauto.
    + intros H. apply H4. destruct H as [H | [<- | H]]; [| | tauto].
      * left. cbn. destruct (decide (k = ID m)) as [-> | Hne].
        -- rewrite lookup_insert_eq. eauto.
        -- now rewrite lookup_insert_ne by congruence.
      * left. cbn. rewrite lookup_insert_eq. eauto.
Qed.

Lemma length_filter_map {A} (f : A -> Z) k l :
  length (List.filter (fun x => f x =? k) l) =
  length (List.filter (fun y => y =? k) (map f l)).
Proof.
  induction l as [| a l IH]; [reflexivity |]. cbn.
  destruct (f a =? k); cbn; now rewrite IH.
Qed.

Lemma count_NoDup k (l : list Z) :
  NoDup l ->
  length (List.filter (fun y => y =? k) l) = if bool_decide (k ∈ l) then 1%nat else 0%nat.
Proof.
  induction l as [| a l IH]; intros Hnd; [reflexivity |].
  apply NoDup_cons in Hnd. destruct Hnd as [Hnot Hnd]. cbn [List.filter].
  destruct (Z.eqb_spec a k) as [-> | Hne].
  - rewrite bool_decide_eq_true_2 by apply list_elem_of_here.
    cbn. rewrite IH by assumption.
    now rewrite bool_decide_eq_false_2.
  - rewrite IH by assumption.
    assert (Hiff : bool_decide (k ∈ a :: l) = bool_decide (k ∈ l)).
    { apply bool_decide_ext. rewrite elem_of_cons. intuition congruence. }
    now rewrite Hiff.
Qed.

(** X16. [Start] on a new checker: when the monitors cannot be listed it
    returns the error and starts nothing; otherwise every monitor of the
    table gets exactly one running loop and an entry in the registry, a
    monitor id that is not in the table gets none, and the pruning goroutine
    runs under the context given. *)
Theorem Start_one_loop_per_monitor d :
  keyed_db d ->
  Start true ctx d NewChecker = (Err, NewChecker, None) /\
  exists c',
    Start false ctx d NewChecker = (Ok (), c', Some ctx) /\
    (forall k, is_Some (monitors d !! k) ->
               length (running_for k c') = 1%nat /\ is_Some (cancel c' !! k)) /\
    (forall k, monitors d !! k = None ->
               running_for k c' = [] /\ cancel c' !! k = None).
Proof.
  intros Hk. split; [reflexivity |].
  destruct (sorted_rows d Hk) as (Hnd & Hin).
  unfold Start, MonitorStore.List.
  set (ms := sort_by_id (snd <$> map_to_list (monitors d))) in *.
  set (c' := foldl (fun c0 m => startWorker ctx m c0) NewChecker ms).
  exists c'. split; [reflexivity |].
  destruct (foldl_startWorker ms NewChecker) as (H1 & H2 & H3 & H4).
  fold c' in H1, H2, H3, H4. cbn in H1, H2, H3.
  assert (Hrun : forall k, length (running_for k c') =
                           if bool_decide (k ∈ map ID ms) then 1%nat else 0%nat).
  { intros k. unfold running_for, running.
    assert (Hall : List.filter (fun l => negb (ctx_done c' l)) (loops c') = loops c').
    { apply forallb_filter_id. apply forallb_forall. intros l _. unfold ctx_done.
      rewrite H2, H3.
      rewrite !bool_decide_eq_false_2 by apply not_elem_of_empty. reflexivity. }
    rewrite Hall, (length_filter_map loop_id), H1. now apply count_NoDup. }
  assert (Hids : forall k, In k (map ID ms) <-> is_Some (monitors d !! k)).
  { intros k. rewrite in_map_iff. split.
    - intros (m & <- & Hm). apply Hin in Hm. eauto.
    - intros [m Hm]. exists m. pose proof (Hk k m Hm) as Hid. subst k.
      split; [reflexivity | now apply Hin]. }
  split.
  - intros k Hsome.
    rewrite Hrun, bool_decide_eq_true_2 by now apply list_elem_of_In, Hids.
    split; [reflexivity |]. apply H4. right. now apply Hids.
  - intros k Hnone.
    assert (Hnot : ~ In k (map ID ms)).
    { intros H. apply Hids in H. rewrite Hnone in H. now destruct H. }
    split.
    + apply length_zero_iff_nil. rewrite Hrun, bool_decide_eq_false_2; [reflexivity |].
      intros H. now apply list_elem_of_In in H.
    + destruct (cancel c' !! k) eqn:E; [| reflexivity].
      exfalso. destruct (proj1 (H4 k)) as [H | H]; eauto.
      cbn in H. rewrite lookup_empty in H. now destruct H.
Qed.

End StartFacts.

Lemma Start_one_loop_per_monitor_witness :
  keyed_db (db_1 "up" 0) /\
  (forall c',
     SupervisorOps.Start false 0 (db_1 "up" 0) Supervisor.NewChecker = (Ok (), c', Some 0%nat) ->
     length (Supervisor.running_for 1 c') = 1%nat).
Proof.
  split; [apply keyed_db_1 |].
  intros c' Hc'.
  destruct (Start_one_loop_per_monitor 0 (db_1 "up" 0) (keyed_db_1 "up" 0))
    as (_ & c'' & Hstart & Hsome & _).
  rewrite Hstart in Hc'. injection Hc' as <-.
  apply Hsome. exists (monitor_1 "up" 0). reflexivity.
Defined.

(** ** Creating, updating and deleting monitors *)

Lemma keyed_keyed_db s : keyed s -> keyed_db (tables s).
Proof. intros [_ H] k m Hm. now destruct (H k m Hm). Qed.

(** X17. [Create] fails without a change when the statement fails.
    Otherwise, below the largest id, it stores a row under the id that follows
    the sequence, an id no row had; the row takes name, URL, interval and
    timeout from the argument and starts as "unknown" with no failures,
    whatever state, count or id the argument carried; [Get] of the new id
    returns it; the other rows are untouched and the table stays keyed. *)
Theorem Create_then_Get m s :
  keyed s ->
  seq s < GoInt.max_int ->
  MonitorStore.Create true m s = (Err, s) /\
  exists s',
    let row := {| ID := seq s + 1; Name := Name m; URL := URL m;
                  IntervalSeconds := IntervalSeconds m;
                  TimeoutSeconds := TimeoutSeconds m;
                  State := "unknown"; ConsecutiveFailures := 0 |} in
    MonitorStore.Create false m s = (Ok row, s') /\
    monitors (tables s) !! (seq s + 1) = None /\
    Store.Get false (seq s + 1) (tables s') = Ok (Some row) /\
    (forall k, k <> seq s + 1 ->
               monitors (tables s') !! k = monitors (tables s) !! k) /\
    checks (tables s') = checks (tables s) /\
    keyed s'.
Proof.
  intros [H0 Hk] Hseq. split; [reflexivity |].
  unfold MonitorStore.Create. rewrite orb_false_l.
  destruct (Z.leb_spec GoInt.max_int (seq s)) as [Hle | _]; [lia |].
  eexists. cbn zeta. split; [reflexivity |]. cbn [tables monitors checks seq].
  assert (Hfresh : monitors (tables s) !! (seq s + 1) = None).
  { destruct (monitors (tables s) !! (seq s + 1)) as [m' |] eqn:E; [| reflexivity].
    destruct (Hk _ _ E). lia. }
  split; [exact Hfresh |]. split.
  { unfold Store.Get. cbn. now rewrite lookup_insert_eq. }
  split.
  { intros k Hne. now rewrite lookup_insert_ne by congruence. }
  split; [reflexivity |].
  split; [cbn; lia |].
  intros k m' Hm'. cbn [tables monitors seq] in *.
  destruct (decide (k = seq s + 1)) as [-> | Hne].
  - rewrite lookup_insert_eq in Hm'. injection Hm' as <-. cbn. lia.
  - rewrite lookup_insert_ne in Hm' by congruence. destruct (Hk k m' Hm'). lia.
Qed.

Lemma keyed_seq_1 st f : keyed (mkSeqDB (db_1 st f) 1).
Proof.
  split; [cbn; lia |]. intros k m H. cbn in H.
  apply lookup_singleton_Some in H. destruct H as [<- <-]. cbn. lia.
Qed.

Lemma Create_then_Get_witness :
  keyed (mkSeqDB (db_1 "down" 4) 1) /\
  seq (mkSeqDB (db_1 "down" 4) 1) < GoInt.max_int /\
  fst (MonitorStore.Create false (monitor_1 "down" 9) (mkSeqDB (db_1 "down" 4) 1)) =
    Ok {| ID := 2; Name := "api"; URL := good_url; IntervalSeconds := 60;
          TimeoutSeconds := 10; State := "unknown"; ConsecutiveFailures := 0 |}.
Proof.
  assert (Hs : seq (mkSeqDB (db_1 "down" 4) 1) < GoInt.max_int) by (cbn; unfold GoInt.max_int; lia).
  split; [apply keyed_seq_1 |]. split; [exact Hs |].
  destruct (Create_then_Get (monitor_1 "down" 9) _ (keyed_seq_1 "down" 4) Hs)
    as (_ & s' & Hc & _).
  cbn zeta in Hc. rewrite Hc. reflexivity.
Defined.

Lemma Create_ok m s :
  seq s < GoInt.max_int ->
  MonitorStore.Create false m s =
  (Ok {| ID := seq s + 1; Name := Name m; URL := URL m;
         IntervalSeconds := IntervalSeconds m; TimeoutSeconds := TimeoutSeconds m;
         State := state_unknown; ConsecutiveFailures := 0 |},
   {| tables :=
        {| monitors :=
             <[seq s + 1 :=
                 {| ID := seq s + 1; Name := Name m; URL := URL m;
                    IntervalSeconds := IntervalSeconds m;
                    TimeoutSeconds := TimeoutSeconds m;
                    State := state_unknown; ConsecutiveFailures := 0 |}]>
               (monitors (tables s));
           checks := checks (tables s) |};
      seq := seq s + 1 |}).
Proof.
  intros Hseq. unfold MonitorStore.Create. rewrite orb_false_l.
  destruct (Z.leb_spec GoInt.max_int (seq s)) as [Hle | _]; [lia | reflexivity].
Qed.

(** X18. Ids are not reused: after a monitor is created and deleted again,
    the next monitor created gets the following id, not the one set free. *)
Theorem deleted_id_not_reused m1 m2 fk s :
  keyed s ->
  seq s + 1 < GoInt.max_int ->
  exists r1 s1 r2 s3,
    MonitorStore.Create false m1 s = (Ok r1, s1) /\
    MonitorStore.Create false m2
      {| tables := snd (MonitorStore.Delete false fk (ID r1) (tables s1));
         seq := seq s1 |} = (Ok r2, s3) /\
    ID r2 = ID r1 + 1 /\
    monitors (tables s3) !! ID r1 = None.
Proof.
  intros [H0 Hk] Hseq.
  rewrite (Create_ok m1 s) by lia.
  do 4 eexists. split; [reflexivity |]. cbn [ID tables seq].
  rewrite Create_ok by (cbn [seq]; lia).
  split; [reflexivity |].
  cbn [ID tables monitors seq]. split; [reflexivity |].
  unfold MonitorStore.Delete. cbn [snd monitors].
  rewrite lookup_insert_ne by lia. apply lookup_delete_eq.
Qed.

Lemma deleted_id_not_reused_witness :
  keyed (mkSeqDB (db_1 "up" 0) 1) /\
  seq (mkSeqDB (db_1 "up" 0) 1) + 1 < GoInt.max_int /\
  exists r1 s1 r2 s3,
    MonitorStore.Create false (monitor_1 "up" 0) (mkSeqDB (db_1 "up" 0) 1) = (Ok r1, s1) /\
    MonitorStore.Create false (monitor_1 "up" 0)
      {| tables := snd (MonitorStore.Delete false true (ID r1) (tables s1));
         seq := seq s1 |} = (Ok r2, s3) /\
    ID r2 = ID r1 + 1 /\
    monitors (tables s3) !! ID r1 = None.
Proof.
  assert (Hs : seq (mkSeqDB (db_1 "up" 0) 1) + 1 < GoInt.max_int)
    by (cbn; unfold GoInt.max_int; lia).
  split; [apply keyed_seq_1 |]. split; [exact Hs |].
  exact (deleted_id_not_reused (monitor_1 "up" 0) (monitor_1 "up" 0) true _
           (keyed_seq_1 "up" 0) Hs).
Defined.

(** X19. [Update] answers [ErrNoRows], and changes nothing, when no row has
    the id. On a row it writes name, URL, interval and timeout and nothing
    else: the state and the failure count of the monitor stay as they were,
    also when the URL changes, and so do the other rows and the checks. *)
Theorem Update_keeps_state m d :
  MonitorStore.Update true m d = (MonitorStore.UpdateFailed, d) /\
  (monitors d !! ID m = None -> MonitorStore.Update false m d = (MonitorStore.ErrNoRows, d)) /\
  (forall old, monitors d !! ID m = Some old ->
     exists d',
       MonitorStore.Update false m d = (MonitorStore.UpdateNil, d') /\
       monitors d' !! ID m =
         Some {| ID := ID old; Name := Name m; URL := URL m;
                 IntervalSeconds := IntervalSeconds m;
                 TimeoutSeconds := TimeoutSeconds m;
                 State := State old;
                 ConsecutiveFailures := ConsecutiveFailures old |} /\
       (forall k, k <> ID m -> monitors d' !! k = monitors d !! k) /\
       checks d' = checks d).
Proof.
  unfold MonitorStore.Update. split; [reflexivity |]. split.
  - now intros ->.
  - intros old Hold. rewrite Hold. eexists. split; [reflexivity |]. cbn.
    split; [now rewrite lookup_alter_eq, Hold |].
    split; [| reflexivity]. intros k Hne. now rewrite lookup_alter_ne by congruence.
Qed.

Lemma Update_keeps_state_witness :
  monitors (db_1 "down" 5) !! ID (mkMonitor 1 "web" "http://example.org/" 30 5 "up" 0) =
    Some (monitor_1 "down" 5) /\
  monitors (snd (MonitorStore.Update false
                   (mkMonitor 1 "web" "http://example.org/" 30 5 "up" 0)
                   (db_1 "down" 5))) !! 1 =
    Some (mkMonitor 1 "web" "http://example.org/" 30 5 "down" 5).
Proof.
  split; [reflexivity |].
  destruct (proj2 (proj2 (Update_keeps_state
              (mkMonitor 1 "web" "http://example.org/" 30 5 "up" 0) (db_1 "down" 5)))
              (monitor_1 "down" 5) eq_refl) as (d' & Hu & Hrow & _).
  rewrite Hu. exact Hrow.
Defined.

(** X20. [Delete] fails without a change when the statement fails; otherwise
    the row is gone ([Get] finds none), a missing id is not an error and
    leaves the monitors as they were, the other rows stay, and with foreign
    keys enforced the checks of the monitor go and those of the others stay
    in their order. *)
Theorem Delete_then_Get fk id d :
  MonitorStore.Delete true fk id d = (Err, d) /\
  exists d',
    MonitorStore.Delete false fk id d = (Ok (), d') /\
    Store.Get false id d' = Ok None /\
    (forall k, k <> id -> monitors d' !! k = monitors d !! k) /\
    (monitors d !! id = None -> monitors d' = monitors d) /\
    (fk = true ->
     checks d' = List.filter (fun c => negb (MonitorID c =? id)) (checks d) /\
     forall c, In c (checks d') <-> In c (checks d) /\ MonitorID c <> id) /\
    (fk = false -> checks d' = checks d).
Proof.
  split; [reflexivity |]. unfold MonitorStore.Delete. eexists.
  split; [reflexivity |]. cbn. unfold Store.Get. cbn.
  split; [now rewrite lookup_delete_eq |].
  split; [intros k Hne; now rewrite lookup_delete_ne by congruence |].
  split; [intros Hnone; now apply delete_id |].
  split.
  - intros ->. split; [reflexivity |]. intros c.
    rewrite filter_In, negb_true_iff, Z.eqb_neq. tauto.
  - now intros ->.
Qed.

(** ** The id in the path *)

Lemma parse_digits_acc (u : uint) : forall acc : positive,
  parse_digits (NilEmpty.string_of_uint u) (Z.pos acc) =
  Some (Z.pos (Pos.of_uint_acc u acc)).
Proof.
  induction u as [| u IH | u IH | u IH | u IH | u IH | u IH | u IH | u IH | u IH | u IH];
    intros acc; [reflexivity | ..];
    cbn [NilEmpty.string_of_uint parse_digits Pos.of_uint_acc];
    change (digit_value _) with (Some 0) || change (digit_value _) with (Some 1)
    || change (digit_value _) with (Some 2) || change (digit_value _) with (Some 3)
    || change (digit_value _) with (Some 4) || change (digit_value _) with (Some 5)
    || change (digit_value _) with (Some 6) || change (digit_value _) with (Some 7)
    || change (digit_value _) with (Some 8) || change (digit_value _) with (Some 9);
    rewrite <- IH; f_equal; lia.
Qed.

Lemma parse_digits_uint (u : uint) :
  parse_digits (NilEmpty.string_of_uint u) 0 = Some (Z.of_N (Pos.of_uint u)).
Proof.
  induction u as [| u IH | u IH | u IH | u IH | u IH | u IH | u IH | u IH | u IH | u IH];
    [reflexivity | exact IH | ..];
    cbn [NilEmpty.string_of_uint parse_digits Pos.of_uint];
    change (digit_value _) with (Some 1) || change (digit_value _) with (Some 2)
    || change (digit_value _) with (Some 3) || change (digit_value _) with (Some 4)
    || change (digit_value _) with (Some 5) || change (digit_value _) with (Some 6)
    || change (digit_value _) with (Some 7) || change (digit_value _) with (Some 8)
    || change (digit_value _) with (Some 9);
    cbn [Z.mul Z.add]; apply parse_digits_acc.
Qed.

Lemma digit_value_range a d : digit_value a = Some d -> 0 <= d <= 9.
Proof.
  unfold digit_value.
  destruct (Z.leb_spec 48 (Z.of_nat (nat_of_ascii a)));
    destruct (Z.leb_spec (Z.of_nat (nat_of_ascii a)) 57); cbn; intros [= <-]; lia.
Qed.

Lemma parse_digits_nonneg s : forall acc v,
  0 <= acc -> parse_digits s acc = Some v -> 0 <= v.
Proof.
  induction s as [| a s IH]; intros acc v Hacc; cbn.
  - intros [= <-]. assumption.
  - destruct (digit_value a) as [d |] eqn:E; [| discriminate].
    apply digit_value_range in E. apply IH. lia.
Qed.

Lemma ParseInt_numeral (u : uint) :
  u <> Nil ->
  ParseInt (NilEmpty.string_of_uint u) =
  if Z.of_N (Pos.of_uint u) <? 2 ^ 63 then Some (Z.of_N (Pos.of_uint u)) else None.
Proof.
  intros Hu. pose proof (parse_digits_uint u) as Hp.
  destruct u; [contradiction | ..];
    cbn [NilEmpty.string_of_uint] in Hp |- *; unfold ParseInt;
    cbn [Ascii.eqb Bool.eqb orb andb]; rewrite Hp; reflexivity.
Qed.

(** X21. The id of the path is accepted exactly as a positive int64: the
    decimal numeral of every id from 1 to the largest int is read back as that
    id, whatever is accepted lies in that range, and the empty string, "0" and
    a numeral with a minus sign are refused. *)
Theorem parseMonitorID_accepts_positive_ids :
  (forall p, Z.pos p <= GoInt.max_int -> parseMonitorID (decimal p) = Some (Z.pos p)) /\
  (forall s id, parseMonitorID s = Some id -> 1 <= id <= GoInt.max_int) /\
  parseMonitorID "" = None /\
  parseMonitorID "0" = None /\
  (forall p, parseMonitorID (String "-" (decimal p)) = None).
Proof.
  split; [| split; [| split; [| split]]].
  - intros p Hp. unfold parseMonitorID, decimal.
    rewrite ParseInt_numeral by apply Unsigned.to_uint_nonnil.
    rewrite Unsigned.of_to. cbn [Z.of_N].
    destruct (Z.ltb_spec (Z.pos p) (2 ^ 63)) as [_ | Hge];
      [reflexivity | unfold GoInt.max_int in Hp; lia].
  - intros s id. unfold parseMonitorID.
    destruct (ParseInt s) as [v |] eqn:Hv; [| discriminate].
    destruct (Z.leb_spec v 0) as [| Hpos]; [discriminate |]. intros [= <-].
    split; [lia |]. unfold ParseInt in Hv. destruct s as [| a rest]; [discriminate |].
    destruct (if (a =? "+")%char || (a =? "-")%char then rest else String a rest)
      as [| b body'] eqn:Hbody; [discriminate |].
    destruct (parse_digits (String b body') 0) as [un |] eqn:Hun; [| discriminate].
    apply parse_digits_nonneg in Hun; [| lia].
    destruct (a =? "-")%char.
    + destruct (un <=? 2 ^ 63); [| discriminate]. injection Hv as <-. lia.
    + destruct (Z.ltb_spec un (2 ^ 63)); [| discriminate]. injection Hv as <-.
      unfold GoInt.max_int. lia.
  - reflexivity.
  - reflexivity.
  - intros p. unfold parseMonitorID, ParseInt, decimal.
    cbn [Ascii.eqb Bool.eqb orb andb].
    pose proof (Unsigned.to_uint_nonnil p) as Hnil.
    pose proof (parse_digits_uint (Pos.to_uint p)) as Hp.
    destruct (NilEmpty.string_of_uint (Pos.to_uint p)) as [| b body'] eqn:Hs.
    { destruct (Pos.to_uint p); try discriminate. contradiction. }
    rewrite Hp, Unsigned.of_to. cbn [Z.of_N].
    destruct (Z.pos p <=? 2 ^ 63); [| reflexivity].
    destruct (Z.leb_spec (- Z.pos p) 0); [reflexivity | lia].
Qed.

Lemma parseMonitorID_accepts_positive_ids_witness :
  Z.pos 42 <= GoInt.max_int /\ parseMonitorID "42" = Some 42.
Proof.
  assert (H : Z.pos 42 <= GoInt.max_int) by (unfold GoInt.max_int; lia).
  split; [exact H |].
  exact (proj1 parseMonitorID_accepts_positive_ids 42%positive H).
Defined.

(** ** The handlers *)

Section HandlerFacts.

Import Api.

Variable TrimSpace : string -> string.

(** X22. POST /api/monitors answers 201 exactly when the body decodes, name
    and URL are not blank and the insert succeeds; any other answer leaves
    store and checker as they were. On 201 the stored monitor has the next
    id, positive interval and timeout (60 and 10 when the request gave none),
    trimmed name and URL, state "unknown" and no failures, [Get] returns it,
    and one loop was started for it under the context of the request and
    entered in the registry. *)
Theorem create_handler fault ctx body s :
  keyed (store s) ->
  seq (store s) < GoInt.max_int ->
  let r := fst (handleMonitorCreate TrimSpace fault ctx body s) in
  let s' := snd (handleMonitorCreate TrimSpace fault ctx body s) in
  (Code r = 201 <->
   fault = false /\
   exists req, body = Some req /\
     TrimSpace (ReqName req) <> "" /\ TrimSpace (ReqURL req) <> "") /\
  (Code r <> 201 -> s' = s) /\
  (Code r = 201 ->
   exists req row,
     body = Some req /\ Content r = BodyMonitor row /\
     ID row = seq (store s) + 1 /\
     Name row = TrimSpace (ReqName req) /\ URL row = TrimSpace (ReqURL req) /\
     IntervalSeconds row =
       (if ReqIntervalSeconds req <=? 0 then 60 else ReqIntervalSeconds req) /\
     TimeoutSeconds row =
       (if ReqTimeoutSeconds req <=? 0 then 10 else ReqTimeoutSeconds req) /\
     0 < IntervalSeconds row /\ 0 < TimeoutSeconds row /\
     State row = "unknown" /\ ConsecutiveFailures row = 0 /\
     Store.Get false (ID row) (tables (store s')) = Ok (Some row) /\
     Supervisor.cancel (checker s') !! ID row = Some (Supervisor.next_ctx (checker s)) /\
     Supervisor.loops (checker s') =
       Supervisor.loops (checker s) ++
       [Supervisor.mkLoop (ID row) ctx (Supervisor.next_ctx (checker s))]).
Proof.
  intros Hk Hseq r s'. subst r s'. unfold handleMonitorCreate.
  destruct body as [req |]; cbn [fst snd Code].
  2:{ split; [| split]; [| reflexivity | discriminate].
      split; [discriminate | intros (_ & req & H & _); discriminate]. }
  destruct (String.eqb_spec (TrimSpace (ReqName req)) "") as [Hn | Hn]; cbn [orb].
  { cbn [fst snd Code]. split; [| split]; [| reflexivity | discriminate].
    split; [discriminate |]. intros (_ & req' & [= <-] & H & _). contradiction. }
  destruct (String.eqb_spec (TrimSpace (ReqURL req)) "") as [Hu | Hu].
  { cbn [fst snd Code]. split; [| split]; [| reflexivity | discriminate].
    split; [discriminate |]. intros (_ & req' & [= <-] & _ & H). contradiction. }
  destruct fault.
  { cbn [fst snd Code]. split; [| split]; [| reflexivity | discriminate].
    split; [discriminate | intros [H _]; discriminate]. }
  rewrite Create_ok by assumption. cbn [fst snd Code Content store checker].
  split; [| split].
  - split; [| reflexivity]. intros _. split; [reflexivity |]. eauto.
  - intros H. now contradiction H.
  - intros _. eexists req, _. split; [reflexivity |]. split; [reflexivity |].
    cbn [ID Name URL IntervalSeconds TimeoutSeconds State ConsecutiveFailures].
    repeat (split; [reflexivity |]).
    split; [destruct (Z.leb_spec (ReqIntervalSeconds req) 0); lia |].
    split; [destruct (Z.leb_spec (ReqTimeoutSeconds req) 0); lia |].
    repeat (split; [reflexivity |]).
    split; [unfold Store.Get; cbn; now rewrite lookup_insert_eq |].
    split; [cbn; apply lookup_insert_eq | reflexivity].
Qed.

(** X23. The worker that POST /api/monitors starts lives under the context
    of the request: once that context is cancelled, which net/http does when
    the handler returns, its loop is done, while the registry still holds its
    entry. *)
Theorem created_worker_ends_with_request fault ctx body s :
  seq (store s) < GoInt.max_int ->
  let r := fst (handleMonitorCreate TrimSpace fault ctx body s) in
  let c' := checker (snd (handleMonitorCreate TrimSpace fault ctx body s)) in
  Code r = 201 ->
  let l := Supervisor.mkLoop (seq (store s) + 1) ctx (Supervisor.next_ctx (checker s)) in
  In l (Supervisor.loops c') /\
  ~ In l (Supervisor.running (SupervisorOps.parent_cancelled ctx c')) /\
  Supervisor.cancel (SupervisorOps.parent_cancelled ctx c') !! (seq (store s) + 1) =
    Some (Supervisor.next_ctx (checker s)).
Proof.
  intros Hseq r c'. subst r c'. unfold handleMonitorCreate.
  destruct body as [req |]; [| discriminate].
  destruct (String.eqb (TrimSpace (ReqName req)) "" || String.eqb (TrimSpace (ReqURL req)) "");
    [discriminate |].
  destruct fault; [discriminate |].
  rewrite Create_ok by assumption. cbn [fst snd Code checker ID]. intros _.
  split; [| split].
  - cbn. apply in_or_app. right. now left.
  - unfold Supervisor.running. rewrite filter_In. intros [_ Hrun].
    unfold Supervisor.ctx_done in Hrun. cbn in Hrun.
    rewrite (bool_decide_eq_true_2 (ctx ∈ {[ctx]} ∪ _)) in Hrun by set_solver.
    rewrite orb_true_r in Hrun. discriminate.
  - cbn. apply lookup_insert_eq.
Qed.

End HandlerFacts.

Lemma create_handler_witness :
  keyed (mkSeqDB (db_1 "up" 0) 1) /\
  seq (mkSeqDB (db_1 "up" 0) 1) < GoInt.max_int /\
  (Api.Code (fst (Api.handleMonitorCreate (fun x => x) false 0
                    (Some (Api.mkMonitorReq "web" "http://example.org/" 0 (-1)))
                    (Api.mkServer (mkSeqDB (db_1 "up" 0) 1) Supervisor.NewChecker))) = 201 <->
   false = false /\
   exists req, Some (Api.mkMonitorReq "web" "http://example.org/" 0 (-1)) = Some req /\
     Api.ReqName req <> "" /\ Api.ReqURL req <> "").
Proof.
  assert (Hs : seq (mkSeqDB (db_1 "up" 0) 1) < GoInt.max_int)
    by (cbn; unfold GoInt.max_int; lia).
  split; [apply keyed_seq_1 |]. split; [exact Hs |].
  exact (proj1 (create_handler (fun x => x) false 0
                  (Some (Api.mkMonitorReq "web" "http://example.org/" 0 (-1)))
                  (Api.mkServer (mkSeqDB (db_1 "up" 0) 1) Supervisor.NewChecker)
                  (keyed_seq_1 "up" 0) Hs)).
Defined.

Lemma created_worker_ends_with_request_witness :
  seq (mkSeqDB (db_1 "up" 0) 1) < GoInt.max_int /\
  Api.Code (fst (Api.handleMonitorCreate (fun x => x) false 0
                   (Some (Api.mkMonitorReq "web" "http://example.org/" 30 5))
                   (Api.mkServer (mkSeqDB (db_1 "up" 0) 1) Supervisor.NewChecker))) = 201 /\
  ~ In (Supervisor.mkLoop 2 0 0)
       (Supervisor.running
          (SupervisorOps.parent_cancelled 0
             (Api.checker
                (snd (Api.handleMonitorCreate (fun x => x) false 0
                        (Some (Api.mkMonitorReq "web" "http://example.org/" 30 5))
                        (Api.mkServer (mkSeqDB (db_1 "up" 0) 1) Supervisor.NewChecker)))))).
Proof.
  assert (Hs : seq (mkSeqDB (db_1 "up" 0) 1) < GoInt.max_int)
    by (cbn; unfold GoInt.max_int; lia).
  split; [exact Hs |]. split; [reflexivity |].
  exact (proj1 (proj2 (created_worker_ends_with_request (fun x => x) false 0
                  (Some (Api.mkMonitorReq "web" "http://example.org/" 30 5))
                  (Api.mkServer (mkSeqDB (db_1 "up" 0) 1) Supervisor.NewChecker)
                  Hs eq_refl))).
Defined.

Section HandlerFacts2.

Import Api.

Variable TrimSpace : string -> string.


(** X25. DELETE /api/monitors/{id} with an id that does not parse answers
    400 and changes nothing. With a valid id the worker is stopped first: its
    registry entry is gone whatever follows. When the delete then fails the
    answer is 500 and the store is unchanged, so a monitor that is still
    stored is left without a worker; otherwise the answer is 204 and the row
    is gone. *)
Theorem delete_handler fault fk idStr s :
  let r := fst (handleMonitorDelete fault fk idStr s) in
  let s' := snd (handleMonitorDelete fault fk idStr s) in
  (parseMonitorID idStr = None -> Code r = 400 /\ s' = s) /\
  (forall id, parseMonitorID idStr = Some id ->
     checker s' = Supervisor.Remove id (checker s) /\
     Supervisor.cancel (checker s') !! id = None /\
     (fault = true -> Code r = 500 /\ store s' = store s) /\
     (fault = false ->
      Code r = 204 /\ monitors (tables (store s')) !! id = None /\
      forall k, k <> id ->
        monitors (tables (store s')) !! k = monitors (tables (store s)) !! k)).
Proof.
  intros r s'. subst r s'. unfold handleMonitorDelete.
  destruct (parseMonitorID idStr) as [id |].
  - split; [discriminate |]. intros id' [= <-].
    unfold MonitorStore.Delete. destruct fault; cbn [fst snd Code store checker tables monitors].
    + split; [reflexivity |]. split; [apply stopWorker_lookup |].
      split; [intros _; split; reflexivity | discriminate].
    + split; [reflexivity |]. split; [apply stopWorker_lookup |].
      split; [discriminate |]. intros _. split; [reflexivity |].
      split; [apply lookup_delete_eq |]. intros k Hne.
      now rewrite lookup_delete_ne by congruence.
  - split; [intros _; split; reflexivity | discriminate].
Qed.

End HandlerFacts2.


Lemma delete_handler_witness :
  parseMonitorID "1" = Some 1 /\
  (true = true ->
   Api.Code (fst (Api.handleMonitorDelete true true "1"
                    (Api.mkServer (mkSeqDB (db_1 "up" 0) 1)
                       (Supervisor.Add 0 (monitor_1 "up" 0) Supervisor.NewChecker)))) = 500 /\
   Api.store (snd (Api.handleMonitorDelete true true "1"
                    (Api.mkServer (mkSeqDB (db_1 "up" 0) 1)
                       (Supervisor.Add 0 (monitor_1 "up" 0) Supervisor.NewChecker)))) =
     mkSeqDB (db_1 "up" 0) 1).
Proof.
  split; [reflexivity |].
  exact (proj1 (proj2 (proj2 (proj2 (delete_handler true true "1"
           (Api.mkServer (mkSeqDB (db_1 "up" 0) 1)
              (Supervisor.Add 0 (monitor_1 "up" 0) Supervisor.NewChecker))) 1 eq_refl)))).
Defined.

(** ** Sessions *)

Section SessionFacts.

Import Auth.

Lemma Valid_cleanup token now sessions :
  Valid token now (cleanup now sessions) = Valid token now sessions.
Proof.
  unfold Valid, cleanup. destruct (String.eqb token ""); [reflexivity |].
  destruct (sessions !! token) as [created |] eqn:E.
  - destruct (Z.ltb_spec (now - created) sessionDuration) as [Hlt | Hge].
    + rewrite (map_lookup_filter_Some_2 _ _ token created); [| assumption | cbn; lia].
      now apply Z.ltb_lt.
    + destruct (filter _ sessions !! token) as [c' |] eqn:E'; [| reflexivity].
      apply map_lookup_filter_Some in E'. destruct E' as [E' _].
      rewrite E in E'. injection E' as <-. now apply Z.ltb_ge.
  - rewrite map_lookup_filter_None_2; [reflexivity | now left].
Qed.

(** X26. A session is valid from its creation until 24 hours have passed and
    not after [Delete]; the empty token is never valid, whatever the store
    holds; a round of [cleanup] changes the validity of no token; when the
    random source fails, no session is created. *)
Theorem session_lifetime b now now' sessions :
  b <> [] ->
  let token := EncodeToString b in
  let s' := snd (Create (Some b) now sessions) in
  fst (Create (Some b) now sessions) = Ok token /\
  (Valid token now' s' = true <-> now' - now < sessionDuration) /\
  Valid token now' (Delete token s') = false /\
  (forall t s, Valid t now' (cleanup now' s) = Valid t now' s) /\
  (forall s, Valid "" now' s = false) /\
  Create None now sessions = (Err, sessions).
Proof.
  intros Hb token s'. subst token s'. cbn [Create fst snd].
  assert (Hne : String.eqb (EncodeToString b) "" = false).
  { destruct b as [| x b]; [contradiction | reflexivity]. }
  split; [reflexivity |]. split; [| split; [| split; [| split]]].
  - unfold Valid. rewrite Hne, lookup_insert_eq. apply Z.ltb_lt.
  - unfold Valid, Delete. now rewrite Hne, lookup_delete_eq.
  - intros t s. apply Valid_cleanup.
  - reflexivity.
  - reflexivity.
Qed.

Lemma session_lifetime_witness :
  [Byte.x61] <> [] /\
  fst (Create (Some [Byte.x61]) 0 ∅) = Ok "61" /\
  (Valid "61" 5 (snd (Create (Some [Byte.x61]) 0 ∅)) = true <-> 5 - 0 < sessionDuration).
Proof.
  assert (H : [Byte.x61] <> []) by discriminate.
  split; [exact H |].
  destruct (session_lifetime [Byte.x61] 0 5 ∅ H) as (H1 & H2 & _).
  split; [exact H1 | exact H2].
Defined.

(** X27. The guard of the monitors API lets a request through exactly when
    its cookie carries a valid session token; a request without the cookie,
    or with an empty, unknown, expired or deleted token, is answered 401 and
    the handler is not run: what it works on is unchanged. *)
Theorem api_guard {S : Type} (next : S -> Api.Reply * S) cookie now sessions (s : S) :
  (Valid (GetSessionToken cookie) now sessions = true ->
   requireAuthAPI next cookie now sessions s = next s) /\
  (Valid (GetSessionToken cookie) now sessions = false ->
   requireAuthAPI next cookie now sessions s =
     (Api.mkReply 401 (Api.BodyError Api.Unauthorized), s)) /\
  (cookie = None \/ cookie = Some "" \/
   (exists t, cookie = Some t /\
      (sessions !! t = None \/
       exists created, sessions !! t = Some created /\ sessionDuration <= now - created)) ->
   requireAuthAPI next cookie now sessions s =
     (Api.mkReply 401 (Api.BodyError Api.Unauthorized), s)).
Proof.
  unfold requireAuthAPI. split; [now intros -> |]. split; [now intros -> |].
  intros H.
  assert (Hv : Valid (GetSessionToken cookie) now sessions = false); [| now rewrite Hv].
  destruct H as [-> | [-> | (t & -> & H)]]; try reflexivity.
  unfold Valid. cbn. destruct (String.eqb t ""); [reflexivity |].
  destruct H as [-> | (created & -> & Hexp)]; [reflexivity |].
  now apply Z.ltb_ge.
Qed.

End SessionFacts.

Lemma api_guard_witness :
  Auth.Valid (Auth.GetSessionToken None) 0 ∅ = false /\
  Auth.requireAuthAPI
    (Api.handleMonitorDelete false true "1") None 0 ∅
    (Api.mkServer (mkSeqDB (db_1 "up" 0) 1) Supervisor.NewChecker) =
  (Api.mkReply 401 (Api.BodyError Api.Unauthorized),
   Api.mkServer (mkSeqDB (db_1 "up" 0) 1) Supervisor.NewChecker).
Proof.
  split; [reflexivity |].
  exact (proj1 (proj2 (api_guard (Api.handleMonitorDelete false true "1") None 0 ∅
                         (Api.mkServer (mkSeqDB (db_1 "up" 0) 1) Supervisor.NewChecker)))
           eq_refl).
Defined.

(** ** Configuration and webhook *)

(** X28. After [applyDefaults] the host and the data directory are not empty
    and the port is not 0; values that were set are kept; applying the
    defaults twice is the same as once. *)
Theorem applyDefaults_fills c :
  let c' := Config.applyDefaults c in
  Config.Host c' <> "" /\ Config.Port c' <> 0 /\ Config.DataDir c' <> "" /\
  (Config.Host c <> "" -> Config.Host c' = Config.Host c) /\
  (Config.Port c <> 0 -> Config.Port c' = Config.Port c) /\
  (Config.DataDir c <> "" -> Config.DataDir c' = Config.DataDir c) /\
  Config.applyDefaults c' = c'.
Proof.
  destruct c as [h p d]. unfold Config.applyDefaults. cbn.
  destruct (String.eqb_spec h ""), (Z.eqb_spec p 0), (String.eqb_spec d "");
    subst; cbn;
    repeat match goal with
           | |- context [String.eqb ?x ""] => destruct (String.eqb_spec x ""); [contradiction |]
           | |- context [?x =? 0] => destruct (Z.eqb_spec x 0); [contradiction |]
           end;
    repeat split; try discriminate; try assumption; try reflexivity; try contradiction.
Qed.

(** X29. Without a webhook URL [Notify] does nothing. With one, every POST of
    a call goes to that URL with the same body: name and URL of the monitor,
    status "down" and the time of the call, the retry included; and the only
    wait is the 5 seconds before the retry. *)
Theorem Notify_posts a m now endpoint :
  (Alerter.webhookURL a = "" -> Alerter.Notify a m now endpoint = []) /\
  (forall e, In e (Alerter.Notify a m now endpoint) ->
     (Alerter.is_post e = true ->
      e = Alerter.APost (Alerter.webhookURL a)
            (Alerter.mkAlertPayload (Name m) (URL m) "down" now)) /\
     (forall secs, e = Alerter.ASleep secs ->
        secs = 5 /\ endpoint 0%nat = Alerter.PostErr)).
Proof.
  split.
  - intros H. unfold Alerter.Notify. now rewrite H.
  - intros e He. destruct (String.eqb_spec (Alerter.webhookURL a) "") as [Hurl | Hurl].
    { unfold Alerter.Notify in He. rewrite Hurl in He. contradiction. }
    rewrite Notify_configured in He by assumption. cbn zeta in He.
    destruct (endpoint 0%nat) eqn:E0; cbn in He;
      repeat (destruct He as [<- | He]; [split; [try discriminate; reflexivity |
                                                 intros secs [= <-] || intros secs H; try discriminate; auto] |]);
      try contradiction.
Qed.

Lemma Notify_posts_witness :
  Alerter.webhookURL (Alerter.NewAlerter "") = "" /\
  Alerter.Notify (Alerter.NewAlerter "") (monitor_1 "down" 3) "2026-01-01T00:00:00Z"
    no_connection = [].
Proof.
  split; [reflexivity |].
  exact (proj1 (Notify_posts (Alerter.NewAlerter "") (monitor_1 "down" 3)
                  "2026-01-01T00:00:00Z" no_connection) eq_refl).
Defined.
